(** * Green Browsing Tracker: the visit log, its aggregates, the dashboard
      snapshots and the CO2 alert, embedded from the extension's sources.

    - [service_worker.js] (src/unnamed/part_002): [getSettings], [saveVisit],
      the message listeners
    - [dashboard.js] (src/unnamed/part_000): [safeParseVisits], [num], the
      snapshot part of [refresh]
    - [content_script.js] (second part of src/popup.js):
      [getCumulativeCO2ForOrigin], [evaluateAlert], and further down
      [gatherMetricsOnce], [detectIssues] and the timers [init] installs
    - the remote sync and the CSV export of [service_worker.js], the
      counts, the recent visits and [clearData] of [dashboard.js]
    - [server/server.js] (second part of src/unnamed/part_002) over its
      in-memory database, and [api/ingest.js] (src/unnamed/part_001)

    JavaScript numbers are IEEE binary64 values.  CO2 quantities, which are
    products with a user-supplied factor, are kept as primitive floats.
    Quantities the program only ever counts or adds as integers (visit
    counters, byte totals, epoch milliseconds, configured minutes and
    seconds) are kept in [Z]; the collector produces them as integers and
    binary64 adds integers exactly below 2^53. *)

From Stdlib Require Import ZArith Lia PrimFloat Uint63 Ascii.
From stdpp Require Import base option list sorting strings pretty gmap.

Set Warnings "-inexact-float,-register-all".
Local Open Scope Z_scope.

(* ===================================================================== *)
(** ** JavaScript values used by the three scripts *)
(* ===================================================================== *)

Module Js.

(** [Number(z)] for an integer [z]: the nearest binary64 value (exact
    for |z| < 2^53, and every byte count here is far below 2^63). *)
Definition of_Z (z : Z) : float :=
  match z with
  | Z0 => PrimFloat.zero
  | Zpos _ => PrimFloat.of_uint63 (Uint63.of_Z z)
  | Zneg p => PrimFloat.opp (PrimFloat.of_uint63 (Uint63.of_Z (Zpos p)))
  end.

(** Truthiness of a number: [0], [-0] and [NaN] are falsy. *)
Definition truthy (x : float) : bool :=
  negb (PrimFloat.is_nan x || PrimFloat.is_zero x).

(** [x || d] on numbers. *)
Definition or (x d : float) : float := if truthy x then x else d.

(** [x || d] where [x] is an integer-valued number. *)
Definition orZ (x d : Z) : Z := if x =? 0 then d else x.

(** [x || d] where [x] is a string or [undefined]: the empty string and
    [undefined] are falsy. *)
Definition truthy_str (x : option string) : bool :=
  match x with
  | Some s => negb (String.eqb s "")
  | None => false
  end.

Definition or_str (x d : option string) : option string :=
  if truthy_str x then x else d.

(** [a === b] on values that are strings or [undefined]. *)
Definition strict_eq (a b : option string) : bool :=
  match a, b with
  | Some x, Some y => String.eqb x y
  | None, None => true
  | _, _ => false
  end.

(** A plain object used as a dictionary.  Its own string keys are
    enumerated in the order they were first assigned; the keys here are
    host names, none of which is an array index.  Assigning to a key that
    exists keeps its position. *)
Definition obj (V : Type) : Type := list (string * V).

Fixpoint get {V} (o : obj V) (k : string) : option V :=
  match o with
  | [] => None
  | (k', v) :: o' => if String.eqb k' k then Some v else get o' k
  end.

Fixpoint set {V} (o : obj V) (k : string) (v : V) : obj V :=
  match o with
  | [] => [(k, v)]
  | (k', v') :: o' =>
      if String.eqb k' k then (k', v) :: o' else (k', v') :: set o' k v
  end.

(** The property key an arbitrary string-or-undefined value becomes in
    [o[x]]. *)
Definition key (x : option string) : string := default "undefined"%string x.

End Js.

(* ===================================================================== *)
(** ** Stored data: visit records, buckets, [chrome.storage.local] *)
(* ===================================================================== *)

(** A visit record as the collector ([gatherMetricsOnce]) emits it and the
    service worker stores it.  Only the fields the modelled code reads are
    kept.  [ts] is the instant [new Date(v.ts).getTime()] in epoch
    milliseconds, [None] when [ts] is absent or does not parse (an Invalid
    Date).  [url_hostname] is [new URL(v.url, location.href).hostname],
    [None] when the record has no [url].  The alternate field names some
    readers fall back to ([date], [host], [co2], [bytes]) are written by
    nothing in this repository and read as [undefined]. *)
Record visit : Type := Visit {
  id : option string;
  ts : option Z;
  url_hostname : option string;
  origin : option string;
  transferBytes : option Z;
  estimatedCO2_g : option float
}.

(** One aggregate bucket, [{visits, bytes, co2}]. *)
Record bucket : Type := Bucket {
  visits : Z;
  bytes : Z;
  co2 : float
}.

(** [aggregates = {byOrigin, byDay}].  [byOrigin] is enumerated by the
    dashboard, so it keeps its key order; [byDay] is only looked up and
    tested for emptiness.  A day key, the first ten characters
    [YYYY-MM-DD] of [toISOString()], is represented by the number of the
    UTC day it names (days since 1970-01-01); the two determine each other
    for the years 0000 to 9999. *)
Record aggregates : Type := Aggregates {
  byOrigin : Js.obj bucket;
  byDay : gmap Z bucket
}.

(** The [settings] object in storage, as far as the service worker reads
    it; an absent key is [None].  ([options.js] writes the two factors and
    nothing else.) *)
Record settings : Type := Settings {
  co2Factor_g_per_byte : option float
}.

(** The keys of [chrome.storage.local] the code uses.  An absent
    [aggregates] reads as [{byOrigin: {}, byDay: {}}], an absent [visits]
    as [[]], an absent [settings] or [lastAlertTimes] as [{}].  A [get]
    hands back what the last [set] wrote, objects with their keys in the
    order they had. *)
Record storage : Type := Storage {
  local_visits : list visit;
  local_aggregates : aggregates;
  local_settings : settings;
  local_lastAlertTimes : gmap string Z
}.

Definition no_settings : settings := Settings None.

Definition empty_storage : storage :=
  Storage [] (Aggregates [] ∅) no_settings ∅.

(* ===================================================================== *)
(** ** service_worker.js *)
(* ===================================================================== *)

Module ServiceWorker.

(** [DEFAULTS.co2Factor_g_per_byte = 1e-6]. *)
Definition DEFAULTS_co2Factor_g_per_byte : float := 1e-6%float.

(** [getSettings]: merge [DEFAULTS] under the stored settings, write the
    merged object back, resolve with it.  Only the CO2 factor matters to
    [saveVisit]. *)
Definition getSettings (st : storage) : float * storage :=
  let current := local_settings st in
  let f := default DEFAULTS_co2Factor_g_per_byte (co2Factor_g_per_byte current) in
  (f, Storage (local_visits st) (local_aggregates st)
        (Settings (Some f)) (local_lastAlertTimes st)).

(** [visits.some(v => v && v.id === record.id)]. *)
Definition already_stored (vs : list visit) (record : visit) : bool :=
  existsb (fun v => Js.strict_eq (id v) (id record)) vs.

(** [while (visits.length > 10000) visits.shift();] *)
Fixpoint shift_while_over (vs : list visit) : list visit :=
  match vs with
  | [] => []
  | _ :: rest =>
      if 10000 <? Z.of_nat (length vs) then shift_while_over rest else vs
  end.

(** [new Date(ts).toISOString().slice(0,10)] as a day number. *)
Definition day_of (t : Z) : Z := t / 86400000.

(** The three additive updates applied to a bucket, after
    [ag.x[k] = ag.x[k] || {visits:0, bytes:0, co2:0}]. *)
Definition bump (b : option bucket) (n : Z) (c : float) : bucket :=
  let b0 := default (Bucket 0 0 0%float) b in
  Bucket (visits b0 + 1)
         (bytes b0 + n)
         (PrimFloat.add (Js.or (co2 b0) 0) (Js.or c 0)).

(** [(transferBytes || 0) * settings.co2Factor_g_per_byte], the value
    [saveVisit] assigns to [record.estimatedCO2_g] before anything else
    reads the record. *)
Definition estimate (co2Factor : float) (record : visit) : float :=
  PrimFloat.mul (Js.of_Z (default 0 (transferBytes record))) co2Factor.

Definition estimated (co2Factor : float) (record : visit) : visit :=
  Visit (id record) (ts record) (url_hostname record) (origin record)
        (transferBytes record) (Some (estimate co2Factor record)).

(** [saveVisit(record)], the storage callbacks run one after the other
    (the remote sync, a fire-and-forget [fetch], is left out).  When [ts]
    is an Invalid Date, [toISOString] throws inside the [try] before
    [chrome.storage.local.set], so only the settings written by
    [getSettings] change. *)
Definition saveVisit (st : storage) (record : visit) : storage :=
  let '(co2Factor, st1) := getSettings st in
  let record' := estimated co2Factor record in
  let n := default 0 (transferBytes record) in
  let c := estimate co2Factor record in
  match ts record with
  | None => st1
  | Some t =>
      let vs0 := local_visits st1 in
      let vs1 := if already_stored vs0 record' then vs0 else vs0 ++ [record'] in
      let vs2 := shift_while_over vs1 in
      let ag := local_aggregates st1 in
      let day := day_of t in
      let k := Js.key (origin record) in
      let byOrigin' := Js.set (byOrigin ag) k (bump (Js.get (byOrigin ag) k) n c) in
      let byDay' := <[day := bump (byDay ag !! day) n c]> (byDay ag) in
      Storage vs2 (Aggregates byOrigin' byDay')
              (local_settings st1) (local_lastAlertTimes st1)
  end.

(** What the caller of [saveVisit] gets back: the listener answers
    [{status: 'ok'}] once the promise resolves, whatever the storage
    callback did. *)
Inductive response : Type := status_ok.

(** One of the two [onMessage] listeners handling a ['visit-record']
    message. *)
Definition on_visit_record (st : storage) (record : visit) : storage * response :=
  (saveVisit st record, status_ok).

(** A sequence of [saveVisit] calls, oldest first. *)
Definition saveVisits (st : storage) (records : list visit) : storage :=
  fold_left saveVisit records st.

End ServiceWorker.

(* ===================================================================== *)
(** ** dashboard.js *)
(* ===================================================================== *)

Module Dashboard.

(** The values [items.visits] may hold. *)
Inductive value : Type :=
| VUndefined
| VNull
| VBoolean (b : bool)
| VNumber (x : float)
| VString (s : string)
| VArray (elements : list value)
| VObject (properties : list (string * value)).

(** [!raw] is false. *)
Definition truthy (v : value) : bool :=
  match v with
  | VUndefined | VNull => false
  | VBoolean b => b
  | VNumber x => Js.truthy x
  | VString s => negb (String.eqb s "")
  | VArray _ | VObject _ => true
  end.

Definition isArray (v : value) : bool :=
  match v with VArray _ => true | _ => false end.

(** [typeof raw === 'object'] ([null] and arrays are objects too). *)
Definition typeof_object (v : value) : bool :=
  match v with VNull | VArray _ | VObject _ => true | _ => false end.

Section SafeParse.

(** The built-in [JSON.parse]: [None] when it throws a SyntaxError. *)
Variable JSON_parse : string -> option value.

(** The [VString] branch is [typeof raw === 'string'], with its
    [try { return JSON.parse(raw); } catch (e) { return []; }]. *)
Definition safeParseVisits (raw : value) : value :=
  if negb (truthy raw) then VArray []
  else if isArray raw then raw
  else match raw with
       | VString s =>
           match JSON_parse s with
           | Some parsed => parsed
           | None => VArray []
           end
       | _ => if typeof_object raw then VArray [raw] else VArray []
       end.

End SafeParse.

(** [JSON.parse] on the four shortest JSON texts; every other text is
    reported as a SyntaxError, so this stands for the built-in only on
    these texts and on malformed ones. *)
Definition JSON_parse_atoms (s : string) : option value :=
  if String.eqb s "null" then Some VNull
  else if String.eqb s "true" then Some (VBoolean true)
  else if String.eqb s "false" then Some (VBoolean false)
  else if String.eqb s "[]" then Some (VArray [])
  else None.

(** [num(v, fallback = 0)] on a number. *)
Definition num (v : float) : float :=
  if PrimFloat.is_finite v then v else 0%float.

(** [num(v.estimatedCO2_g || v.co2 || 0)]. *)
Definition visit_co2 (v : visit) : float :=
  num (match estimatedCO2_g v with Some x => Js.or x 0 | None => 0%float end).

(** [num(v.transferBytes || v.bytes || 0)]. *)
Definition visit_bytes (v : visit) : Z := default 0 (transferBytes v).

(** The bucket update of the two rebuild loops. *)
Definition add_visit (b : option bucket) (v : visit) : bucket :=
  let b0 := default (Bucket 0 0 0%float) b in
  Bucket (visits b0 + 1) (bytes b0 + visit_bytes v)
         (PrimFloat.add (co2 b0) (visit_co2 v)).

(** Step 2 of [refresh]: [byDay] is rebuilt from the visits when it is
    missing or has no key.  The source files a visit under the first ten
    characters of its [ts] text, and a visit without [ts] under today's
    date.  For a [ts] in the form [toISOString] writes, which is what the
    collector sends and [saveVisit] stores, these characters are the UTC
    day of its instant, and that is the log this definition is for: a [ts]
    text in another form is filed by the source under whatever its first
    ten characters are, which [visit] does not keep. *)
Definition rebuild_byDay (today : Z) (vs : list visit) : gmap Z bucket :=
  fold_left
    (fun m v =>
       let day := ServiceWorker.day_of (default today (ts v)) in
       <[day := add_visit (m !! day) v]> m)
    vs ∅.

Definition byDay_used (today : Z) (vs : list visit) (ag : aggregates) : gmap Z bucket :=
  if Nat.eqb (size (byDay ag)) 0 then rebuild_byDay today vs else byDay ag.

(** The local clock: [to_local t] is the local time value of the instant
    [t] (ECMAScript's LocalTime), [to_utc l] the instant of the local time
    value [l] (ECMAScript's UTC). *)
Record zone : Type := Zone {
  to_local : Z -> Z;
  to_utc : Z -> Z
}.

(** A zone whose offset from UTC never changes. *)
Definition fixed_zone (offset_ms : Z) : zone :=
  Zone (fun t => t + offset_ms) (fun l => l - offset_ms).

(** [d = new Date(today); d.setDate(today.getDate() - i)]: the local
    date moves back [i] days, the local time of day stays. *)
Definition setDate_back (tz : zone) (today : Z) (i : Z) : Z :=
  to_utc tz (to_local tz today - i * 86400000).

(** [i = n - 1, n - 2, ..., 0]. *)
Fixpoint countdown (n : nat) : list Z :=
  match n with
  | O => []
  | S m => Z.of_nat m :: countdown m
  end.

(** [daysArr], with [N = 7] in the source. *)
Definition daysArr_of (N : nat) (tz : zone) (today : Z) : list Z :=
  map (fun i => ServiceWorker.day_of (setDate_back tz today i)) (countdown N).

Definition daysArr : zone -> Z -> list Z := daysArr_of 7.

(** [Number((ag.byDay && ag.byDay[day] && Number(ag.byDay[day].co2)) || 0)]. *)
Definition day_co2 (m : gmap Z bucket) (day : Z) : float :=
  match m !! day with
  | Some b => Js.or (co2 b) 0
  | None => 0%float
  end.

Definition co2PerDay (tz : zone) (today : Z) (vs : list visit) (ag : aggregates) : list float :=
  map (day_co2 (byDay_used today vs ag)) (daysArr tz today).

(** Step 4 of [refresh]: [byOrigin] is rebuilt from the visits when it is
    missing or has no key; the key is [v.origin || v.host || 'unknown']. *)
Definition rebuild_byOrigin (vs : list visit) : Js.obj bucket :=
  fold_left
    (fun o v =>
       let k := default "unknown"%string (Js.or_str (origin v) None) in
       Js.set o k (add_visit (Js.get o k) v))
    vs [].

Definition byOrigin_used (vs : list visit) (ag : aggregates) : Js.obj bucket :=
  match byOrigin ag with
  | [] => rebuild_byOrigin vs
  | o => o
  end.

(** The comparator [(a, b) => (b[1].bytes||0) - (a[1].bytes||0)]. *)
Definition by_bytes_desc (a b : string * bucket) : Z :=
  Js.orZ (bytes (snd b)) 0 - Js.orZ (bytes (snd a)) 0.

(** [Array.prototype.sort(cmp)]: a stable sort (ECMAScript 2019), here by
    insertion from the right.  [x], which stood before everything in [l],
    goes before the first element it is not greater than. *)
Fixpoint insert_by {A} (cmp : A -> A -> Z) (x : A) (l : list A) : list A :=
  match l with
  | [] => [x]
  | y :: l' => if cmp x y <=? 0 then x :: l else y :: insert_by cmp x l'
  end.

Definition sort_by {A} (cmp : A -> A -> Z) (l : list A) : list A :=
  foldr (insert_by cmp) [] l.

(** [Object.entries(ag.byOrigin).sort(...)] and [byOrigin.slice(0, 10)]. *)
Definition byOrigin_sorted (vs : list visit) (ag : aggregates) : list (string * bucket) :=
  sort_by by_bytes_desc (byOrigin_used vs ag).

Definition top (vs : list visit) (ag : aggregates) : list (string * bucket) :=
  take 10 (byOrigin_sorted vs ag).

End Dashboard.

(* ===================================================================== *)
(** ** content_script.js: the CO2 alert *)
(* ===================================================================== *)

Module ContentScript.

(** The merged [SETTINGS] object, as far as the alert reads it. *)
Record SETTINGS_t : Type := MkSettings {
  alert_enabled : bool;
  alert_co2_threshold_g : float;
  alert_time_threshold_s : Z;
  alert_window_minutes : Z;
  alert_cooldown_min : Z
}.

Definition DEFAULT_SETTINGS : SETTINGS_t :=
  MkSettings true 10%float 30 10 5.

(** [Number(v.estimatedCO2_g || v.co2 || 0)]. *)
Definition visit_co2 (v : visit) : float :=
  match estimatedCO2_g v with Some x => Js.or x 0 | None => 0%float end.

(** [windowMs] and [cooldownMs], as the source computes them. *)
Definition windowMs (S : SETTINGS_t) : Z :=
  Js.orZ (alert_window_minutes S) (alert_window_minutes DEFAULT_SETTINGS) * 10 * 1000.

Definition cooldownMs (S : SETTINGS_t) : Z :=
  Js.orZ (alert_cooldown_min S) (alert_cooldown_min DEFAULT_SETTINGS) * 10 * 1000.

(** The test one record passes to be added to [sum]: a truthy [ts], not
    older than [windowMs], and
    [v.origin || v.host || hostname(v.url)] equal to the page's origin. *)
Definition counted (S : SETTINGS_t) (origin0 : string) (now : Z) (v : visit) : bool :=
  match ts v with
  | None => false
  | Some t =>
      if t =? 0 then false
      else if now - t >? windowMs S then false
      else Js.strict_eq (Js.or_str (origin v) (url_hostname v)) (Some origin0)
  end.

(** [getCumulativeCO2ForOrigin]: the [sum] it resolves with. *)
Definition getCumulativeCO2ForOrigin
    (S : SETTINGS_t) (origin0 : string) (now : Z) (vs : list visit) : float :=
  fold_left
    (fun sum v => if counted S origin0 now v then PrimFloat.add sum (visit_co2 v) else sum)
    vs 0%float.

(** What the notifier is given when an alert fires (the banner text). *)
Record alert : Type := Alert {
  alert_origin : string;
  alert_sum : float;
  alert_minutes_shown : Z
}.

(** [lastAlertTimes[origin] ? Number(lastAlertTimes[origin]) : 0]. *)
Definition lastTs_of (times : gmap string Z) (origin0 : string) : Z :=
  default 0 (times !! origin0).

(** [evaluateAlert]: the alert raised, if any, and the storage after
    [setLastAlertTimeForOrigin].  [activeSeconds] is the counter the
    one-second timer keeps; the two readings of [Date.now()] within one
    tick are taken as one instant [now]. *)
Definition evaluateAlert
    (S : SETTINGS_t) (origin0 : string) (activeSeconds now : Z) (st : storage)
    : option alert * storage :=
  if negb (alert_enabled S) then (None, st)
  else if activeSeconds <? Js.orZ (alert_time_threshold_s S)
                                 (alert_time_threshold_s DEFAULT_SETTINGS)
  then (None, st)
  else
    let sum := getCumulativeCO2ForOrigin S origin0 now (local_visits st) in
    if PrimFloat.ltb sum (Js.or (alert_co2_threshold_g S)
                                (alert_co2_threshold_g DEFAULT_SETTINGS))
    then (None, st)
    else
      let lastTs := lastTs_of (local_lastAlertTimes st) origin0 in
      if negb (lastTs =? 0) && (now - lastTs <? cooldownMs S) then (None, st)
      else
        (Some (Alert origin0 sum (alert_window_minutes S)),
         Storage (local_visits st) (local_aggregates st) (local_settings st)
                 (<[origin0 := now]> (local_lastAlertTimes st))).

End ContentScript.

(* ===================================================================== *)
(** ** Vocabulary of the statements *)
(* ===================================================================== *)

Module Tally.
Import ServiceWorker.

(** The CO2 factor a [saveVisit] on this storage works with. *)
Definition factor_of (st : storage) : float :=
  default DEFAULTS_co2Factor_g_per_byte (co2Factor_g_per_byte (local_settings st)).

(** [saveVisit] reaches [chrome.storage.local.set] for this record. *)
Definition dated (r : visit) : bool :=
  match ts r with Some _ => true | None => false end.

(** The record is filed under origin key [k], resp. under day [d]. *)
Definition of_origin (k : string) (r : visit) : bool :=
  String.eqb (Js.key (origin r)) k.

Definition of_day (d : Z) (r : visit) : bool :=
  match ts r with Some t => day_of t =? d | None => false end.

(** A bucket after the records [rs] were added to it, oldest first, each
    with the estimate computed from its bytes and the factor [f]. *)
Definition add_all (f : float) (b : option bucket) (rs : list visit) : option bucket :=
  fold_left
    (fun b r => Some (bump b (default 0 (transferBytes r)) (estimate f r)))
    rs b.

(** The integer totals of a bucket that may not exist yet. *)
Definition visitCount (b : option bucket) : Z := from_option visits 0 b.
Definition totalBytes (b : option bucket) : Z := from_option bytes 0 b.

Definition count (rs : list visit) : Z := Z.of_nat (length rs).

Definition sum_bytes (rs : list visit) : Z :=
  foldr (fun r acc => default 0 (transferBytes r) + acc) 0 rs.

Definition totalCO2_g (b : option bucket) : float := from_option co2 0%float b.

(** The factor-weighted sum of the byte counts [ns], as JavaScript
    accumulates it: the running sum [(co2 || 0) + (n * f || 0)]. *)
Definition weighted_sum_from (f : float) (acc0 : float) (ns : list Z) : float :=
  fold_left
    (fun acc n => PrimFloat.add (Js.or acc 0) (Js.or (PrimFloat.mul (Js.of_Z n) f) 0))
    ns acc0.

Definition weighted_sum (f : float) (ns : list Z) : float :=
  weighted_sum_from f 0%float ns.

(** The log a run of ingests leaves: the last 10000 of what was appended. *)
Definition last_10000 (vs : list visit) : list visit :=
  drop (Z.to_nat (Z.of_nat (length vs) - 10000)) vs.

Definition ids (vs : list visit) : list (option string) := map id vs.

(** Every bucket's visit counter is the number of records of its key that
    the log holds. *)
Definition counters_count_the_log (st : storage) : Prop :=
  (forall k, visitCount (Js.get (byOrigin (local_aggregates st)) k) =
             count (List.filter (of_origin k) (local_visits st)))
  /\ (forall d, visitCount (byDay (local_aggregates st) !! d) =
                count (List.filter (of_day d) (local_visits st))).

(** Orderings of [Object.entries(ag.byOrigin)]: [a] may stand before [b]
    in a list sorted by descending bytes; [e] has byte total [n]. *)
Definition not_fewer_bytes (a b : string * bucket) : Prop :=
  bytes (snd b) <= bytes (snd a).

Definition has_bytes (n : Z) (e : string * bucket) : bool := bytes (snd e) =? n.

(** The record a caller sends when it fills in [estimatedCO2_g] itself. *)
Definition with_estimatedCO2_g (r : visit) (x : option float) : visit :=
  Visit (id r) (ts r) (url_hostname r) (origin r) (transferBytes r) x.

End Tally.

(* ===================================================================== *)
(** ** Sample data *)
(* ===================================================================== *)

Module Samples.

(** 2025-11-02T00:00:00Z, the start of UTC day 20394. *)
Definition midnight : Z := 1762041600000.

(** A 2 MB visit of [a.test] at [midnight]. *)
Definition visit_a : visit :=
  Visit (Some "v-a"%string) (Some midnight) (Some "a.test"%string)
        (Some "a.test"%string) (Some 2000000) None.

(** The same visit as a collector that lost [location.hostname] would
    send it. *)
Definition visit_without_origin : visit :=
  Visit (Some "v-b"%string) (Some midnight) None None (Some 2000000) None.

(** The [i]-th record of a run: one kilobyte from [a.test], one second
    after the record before it, its id the decimal numeral of [i]. *)
Definition numbered (i : nat) : visit :=
  Visit (Some (pretty i)) (Some (midnight + Z.of_nat i * 1000))
        (Some "a.test"%string) (Some "a.test"%string) (Some 1000) None.

Definition run (n : nat) : list visit := map numbered (seq 0 n).

(** Four visits on one day: [a.test] is seen first and reaches 300 bytes
    only with its second visit, after [b.test] got its 300 at once. *)
Definition visit_of (i o : string) (n : Z) : visit :=
  Visit (Some i) (Some midnight) (Some o) (Some o) (Some n) None.

(** The alert scenario of P4: ten minutes past midnight, the settings
    [windowMinutes = 10], [co2ThresholdG = 5], [timeThresholdS = 0] (and
    the default cooldown of 5), and visits of [a.test] of 2 MB, that is 2 g
    at the default factor. *)
Definition now0 : Z := midnight + 600000.

Definition settings_P4 : ContentScript.SETTINGS_t :=
  ContentScript.MkSettings true 5%float 0 10 5.

Definition heavy (i : string) (t : Z) (megabytes : Z) : visit :=
  Visit (Some i) (Some t) (Some "a.test"%string) (Some "a.test"%string)
        (Some (megabytes * 1000000)) None.

(** Three visits four, three and two minutes before [now0]. *)
Definition minutes_ago : list visit :=
  [ heavy "m1" (now0 - 240000) 2; heavy "m2" (now0 - 180000) 2;
    heavy "m3" (now0 - 120000) 2 ].

(** Three visits ninety, sixty and thirty seconds before [now0]. *)
Definition seconds_ago : list visit :=
  [ heavy "s1" (now0 - 90000) 2; heavy "s2" (now0 - 60000) 2;
    heavy "s3" (now0 - 30000) 2 ].

Definition three_sites : list visit :=
  [ visit_of "1" "a.test" 100; visit_of "2" "b.test" 300;
    visit_of "3" "a.test" 200; visit_of "4" "c.test" 100 ].

(** The night the clocks go back in America/Los_Angeles: at
    2025-11-02T09:00:00Z, which is 02:00 local daylight time, the offset
    from UTC changes from -7 to -8 hours.  [los_angeles] is that zone
    between its clock changes of March 2025 and March 2026; a local time
    that is read twice that night is taken with the offset before the
    change, as ECMAScript's [UTC(t)] takes it. *)
Definition clocks_go_back : Z := midnight + 9 * 3600000.

Definition los_angeles : Dashboard.zone :=
  Dashboard.Zone
    (fun t => if t <? clocks_go_back then t - 7 * 3600000 else t - 8 * 3600000)
    (fun l => if l <? midnight + 2 * 3600000 then l + 7 * 3600000 else l + 8 * 3600000).

(** 2025-11-03T00:30:00Z: in Los Angeles, Sunday 2 November, 16:30. *)
Definition sunday_afternoon : Z := midnight + 86400000 + 1800000.

(** A 5 MB visit of [a.test] at 2025-11-02T12:00:00Z, 04:00 on that
    Sunday in Los Angeles. *)
Definition sunday_visit : visit := heavy "sun" (midnight + 12 * 3600000) 5.

End Samples.

(* ===================================================================== *)
(** ** service_worker.js: the remote sync and the CSV export *)
(* ===================================================================== *)

Module Sync.

(** The three keys of the stored [settings] object the sync reads; an
    absent key is [None]. *)
Record sync_keys : Type := SyncKeys {
  syncEnabled : option bool;
  serverUrl : option string;
  apiKey : option string
}.

(** What [getSettings] writes back for these keys:
    [{syncEnabled: true, serverUrl: current.serverUrl || 'http://localhost:4000',
      apiKey: current.apiKey || ''}], laid over the stored object. *)
Definition getSettings (current : sync_keys) : sync_keys :=
  SyncKeys (Some true)
           (Js.or_str (serverUrl current) (Some "http://localhost:4000"%string))
           (Js.or_str (apiKey current) (Some ""%string)).

(** [s.replace(/\/$/, '')]: a slash at the very end is dropped. *)
Fixpoint strip_final_slash (s : string) : string :=
  match s with
  | EmptyString => EmptyString
  | String c rest =>
      match rest with
      | EmptyString => if Ascii.eqb c "/"%char then EmptyString else s
      | String _ _ => String c (strip_final_slash rest)
      end
  end.

(** The [fetch] of [saveVisit], as far as the settings shape it: the URL
    and the [x-api-key] header (the method is POST, the content type JSON,
    the body the record). *)
Record request : Type := Request {
  url : string;
  x_api_key : option string
}.

(** [if (s.syncEnabled && s.serverUrl) fetch(...)], on the settings
    [saveVisit] reads back. *)
Definition sync_request (s : sync_keys) : option request :=
  match syncEnabled s, Js.truthy_str (serverUrl s), serverUrl s with
  | Some true, true, Some u =>
      Some (Request (strip_final_slash u +:+ "/ingest")
                    (if Js.truthy_str (apiKey s) then apiKey s else None))
  | _, _, _ => None
  end.

(** The request one [saveVisit] sends, given what the store held before:
    [getSettings] has written its keys when the sync reads them. *)
Definition saveVisit_request (current : sync_keys) : option request :=
  sync_request (getSettings current).

End Sync.

Module CsvExport.

(** What a field of a stored visit may hold in the eight exported columns:
    nothing, [null], a text or a number.  A text is kept as its UTF-8
    bytes. *)
Inductive cell : Type :=
| CUndefined
| CNull
| CText (s : string)
| CNumber (x : float).

Definition truthy (c : cell) : bool :=
  match c with
  | CUndefined | CNull => false
  | CText s => negb (String.eqb s "")
  | CNumber x => Js.truthy x
  end.

(** [v[h]] and [v[h] || '']. *)
Definition field (v : Js.obj cell) (h : string) : cell :=
  default CUndefined (Js.get v h).

Definition or_empty (c : cell) : cell := if truthy c then c else CText "".

Definition header : list string :=
  [ "ts"; "origin"; "url"; "title"; "transferBytes"; "resourceCount";
    "loadTimeMs"; "estimatedCO2_g" ]%string.

Definition double_quote : ascii := "034"%char.
Definition line_feed : ascii := "010"%char.

Definition hex_digit (n : N) : ascii :=
  default "0"%char (String.get (N.to_nat n) "0123456789abcdef").

(** ECMAScript's QuoteJSONString, one character at a time: the two-letter
    escapes, [\u00XX] for the other control characters, everything else as
    it is. *)
Definition escape (c : ascii) : string :=
  let n := N_of_ascii c in
  if (n =? 8)%N then "\b"
  else if (n =? 9)%N then "\t"
  else if (n =? 10)%N then "\n"
  else if (n =? 12)%N then "\f"
  else if (n =? 13)%N then "\r"
  else if (n =? 34)%N then String "\"%char (String double_quote "")
  else if (n =? 92)%N then "\\"
  else if (n <? 32)%N then
    "\u00" +:+ String (hex_digit (n / 16)) (String (hex_digit (n mod 16)) "")
  else String c "".

Fixpoint escape_all (s : string) : string :=
  match s with
  | EmptyString => EmptyString
  | String c rest => escape c +:+ escape_all rest
  end.

Definition quote (s : string) : string :=
  String double_quote (escape_all s +:+ String double_quote "").

Section Stringify.

(** The built-in conversion of a finite number to its decimal text. *)
Variable Number_toString : float -> string.

(** [JSON.stringify] of a cell.  [JSON.stringify(undefined)] is
    [undefined], which [join] prints as the empty text; the export never
    gets there, because of the [|| '']. *)
Definition JSON_stringify (c : cell) : string :=
  match c with
  | CUndefined => ""
  | CNull => "null"
  | CText s => quote s
  | CNumber x => if PrimFloat.is_finite x then Number_toString x else "null"
  end.

(** [header.map(h => JSON.stringify(v[h]||'')).join(',')]. *)
Definition row (v : Js.obj cell) : string :=
  String.concat "," (map (fun h => JSON_stringify (or_empty (field v h))) header).

(** [header.join(',') + '\n' + rows], the [csv] of the answer. *)
Definition csv (vs : list (Js.obj cell)) : string :=
  String.concat "," header +:+ String line_feed ""
    +:+ String.concat (String line_feed "") (map row vs).

End Stringify.

(** The number of line feeds in a text. *)
Fixpoint line_breaks (s : string) : nat :=
  match s with
  | EmptyString => O
  | String c rest => (if Ascii.eqb c line_feed then 1 else 0) + line_breaks rest
  end.

(** Reading a quoted text back: the inverse of [quote] used to state
    that no two texts are quoted alike.  [hex_value] is the digit a
    character stands for. *)
Definition hex_value (c : ascii) : option N :=
  let n := N_of_ascii c in
  if (48 <=? n)%N && (n <=? 57)%N then Some (n - 48)%N
  else if (97 <=? n)%N && (n <=? 102)%N then Some (n - 87)%N
  else if (65 <=? n)%N && (n <=? 70)%N then Some (n - 55)%N
  else None.

Definition two_letter (e : ascii) : option ascii :=
  let n := N_of_ascii e in
  if (n =? 98)%N then Some "008"%char
  else if (n =? 116)%N then Some "009"%char
  else if (n =? 110)%N then Some "010"%char
  else if (n =? 102)%N then Some "012"%char
  else if (n =? 114)%N then Some "013"%char
  else if (n =? 34)%N then Some double_quote
  else if (n =? 92)%N then Some "\"%char
  else if (n =? 47)%N then Some "/"%char
  else None.

Fixpoint unescape_all (s : string) : option string :=
  match s with
  | EmptyString => None
  | String c rest =>
      if Ascii.eqb c double_quote then
        match rest with EmptyString => Some EmptyString | _ => None end
      else if Ascii.eqb c "\"%char then
        match rest with
        | EmptyString => None
        | String e rest' =>
            if Ascii.eqb e "u"%char then
              match rest' with
              | String h1 (String h2 (String h3 (String h4 rest''))) =>
                  match hex_value h1, hex_value h2, hex_value h3, hex_value h4 with
                  | Some 0%N, Some 0%N, Some a, Some b =>
                      String (ascii_of_N (a * 16 + b)) <$> unescape_all rest''
                  | _, _, _, _ => None
                  end
              | _ => None
              end
            else
              match two_letter e with
              | Some d => String d <$> unescape_all rest'
              | None => None
              end
        end
      else String c <$> unescape_all rest
  end.

Definition unquote (s : string) : option string :=
  match s with
  | String c rest => if Ascii.eqb c double_quote then unescape_all rest else None
  | EmptyString => None
  end.

End CsvExport.

Module ExportSamples.

(** A stored visit whose title holds a comma, a quote and a line break. *)
Definition awkward : Js.obj CsvExport.cell :=
  [ ("ts", CsvExport.CText "2025-11-02T00:00:00.000Z");
    ("origin", CsvExport.CText "a.test");
    ("title", CsvExport.CText
       (String "a" (String "," (String CsvExport.double_quote
          (String CsvExport.line_feed (String "b" EmptyString))))));
    ("transferBytes", CsvExport.CNumber 0);
    ("estimatedCO2_g", CsvExport.CNumber 2) ]%string.

(** A stand-in for the number printer, right on the numbers used here. *)
Definition print_small (x : float) : string :=
  if PrimFloat.eqb x 2 then "2" else "0".

End ExportSamples.

(* ===================================================================== *)
(** ** dashboard.js: the visit count, recent visits, clearing *)
(* ===================================================================== *)

Module DashboardViews.

(** Step 1 of [refresh]: the visit count, [visits.length]. *)
Definition visits_count (vs : list visit) : Z := Z.of_nat (length vs).

(** Step 5 of [refresh]: [visits.slice().reverse().slice(0, 50)]. *)
Definition recentVisits (vs : list visit) : list visit := take 50 (reverse vs).

(** [clearData]: after the user confirms, [visits] and [aggregates] are
    overwritten; nothing else in the store is. *)
Definition clearData (confirmed : bool) (st : storage) : storage :=
  if confirmed
  then Storage [] (Aggregates [] ∅) (local_settings st) (local_lastAlertTimes st)
  else st.

(** The key the rebuild of [byOrigin] files a visit under,
    [v.origin || v.host || 'unknown']. *)
Definition origin_or_unknown (v : visit) : string :=
  default "unknown"%string (Js.or_str (origin v) None).

(** The sum of the visit counters of all buckets of an index. *)
Definition all_visits_by_origin (o : Js.obj bucket) : Z :=
  foldr (fun e total => visits (snd e) + total) 0 o.

Definition all_visits_by_day (m : gmap Z bucket) : Z :=
  map_fold (fun _ b total => visits b + total) 0 m.

(** The log's records the rebuild files under key [k], and a bucket after
    the rebuild added the visits [vs] to it. *)
Definition filed_under (k : string) (v : visit) : bool :=
  String.eqb (origin_or_unknown v) k.

Definition add_visits (b : option bucket) (vs : list visit) : option bucket :=
  fold_left (fun b v => Some (Dashboard.add_visit b v)) vs b.

(** The keys of an object after an assignment to key [k]. *)
Definition add_key (l : list string) (k : string) : list string :=
  if existsb (String.eqb k) l then l else l ++ [k].

(** The record has a non-empty [origin]. *)
Definition has_origin (r : visit) : bool := Js.truthy_str (origin r).

End DashboardViews.

(* ===================================================================== *)
(** ** content_script.js: the collector, the timers, the page's events *)
(* ===================================================================== *)

Module Collector.

(** One [PerformanceResourceTiming] entry, as far as it is read: the two
    sizes, each a number (a count of bytes) or absent. *)
Record entry : Type := Entry {
  transferSize : option Z;
  encodedBodySize : option Z
}.

(** The body of [entries.forEach]: [transferSize] when it is a positive
    number, else [encodedBodySize] when it is a number. *)
Definition add_entry (transferBytes : Z) (e : entry) : Z :=
  match transferSize e, encodedBodySize e with
  | Some n, other =>
      if 0 <? n then transferBytes + n
      else match other with
           | Some m => transferBytes + m
           | None => transferBytes
           end
  | None, Some m => transferBytes + m
  | None, None => transferBytes
  end.

Definition transferBytes_of (entries : list entry) : Z :=
  fold_left add_entry entries 0.

(** A [<video>] element of the page, as [detectIssues] reads it. *)
Record video : Type := Video {
  autoplay : bool;
  paused : bool;
  ended : bool
}.

(** The [code] of an issue. *)
Inductive issue : Type :=
| autoplay_video
| page_weight
| too_many_resources
| long_tasks.

(** The record [gatherMetricsOnce] builds: the fields the service worker
    stores ([sent]), and the ones only [detectIssues] reads. *)
Record record : Type := MkRecord {
  sent : visit;
  resourceCount : Z;
  longTasks : Z;
  issues : list issue
}.

(** [safeNum(v, fallback)] on a number. *)
Definition safeNum (v fallback : float) : float :=
  if PrimFloat.is_finite v then v else fallback.

(** [detectIssues(record)], the issue codes in the order they are pushed. *)
Definition detectIssues (videos : list video) (r : record) : list issue :=
  (if existsb (fun v => autoplay v || (negb (paused v) && negb (ended v))) videos
   then [autoplay_video] else [])
  ++ (if 5000000 <? Js.orZ (default 0 (transferBytes (sent r))) 0
      then [page_weight] else [])
  ++ (if 150 <? Js.orZ (resourceCount r) 0 then [too_many_resources] else [])
  ++ (if 3 <? Js.orZ (longTasks r) 0 then [long_tasks] else []).

(** [SETTINGS.co2Factor_g_per_byte || DEFAULT_SETTINGS.co2Factor_g_per_byte]
    after [loadSettings] merged the stored settings over the defaults. *)
Definition co2Factor (s : settings) : float :=
  Js.or (default 1e-6%float (co2Factor_g_per_byte s)) 1e-6%float.

(** [gatherMetricsOnce]: [guid] is what [guid()] returned, [now] the
    instant of [new Date()], [hostname] is [location.hostname], [entries]
    the resource timing entries and [videos] the page's video elements.
    The long-task observer is created with [longTasks: 0] in the record;
    its callback is queued by the browser and cannot run before
    [detectIssues], which is called in the same synchronous block. *)
Definition gatherMetricsOnce
    (s : settings) (guid : string) (now : Z) (hostname : string)
    (entries : list entry) (videos : list video) : record :=
  let transferBytes := transferBytes_of entries in
  let resourceCount := Z.of_nat (length entries) in
  let estimatedCO2_g :=
    safeNum (PrimFloat.mul (Js.of_Z transferBytes) (co2Factor s)) 0%float in
  let r :=
    MkRecord (Visit (Some guid) (Some now) (Some hostname) (Some hostname)
                    (Some transferBytes) (Some estimatedCO2_g))
             resourceCount 0 [] in
  MkRecord (sent r) (resourceCount) (longTasks r) (detectIssues videos r).

End Collector.

Module Page.
Import ContentScript.

(** The variables of the content script's closure, the store it shares
    with the service worker, and the alerts raised so far (sound and
    banner), oldest first, each with the [now] it was raised at.
    A timer is [true] when its variable holds an interval. *)
Record state : Type := State {
  activeSeconds : Z;
  activeTimer : bool;
  checkTimer : bool;
  store : storage;
  raised : list (Z * alert)
}.

Definition startActiveTimer (s : state) : state :=
  if activeTimer s then s
  else State (activeSeconds s) true (checkTimer s) (store s) (raised s).

Definition stopActiveTimer (s : state) : state :=
  if activeTimer s
  then State (activeSeconds s) false (checkTimer s) (store s) (raised s)
  else s.

Definition startCheckTimer (s : state) : state :=
  if checkTimer s then s
  else State (activeSeconds s) (activeTimer s) true (store s) (raised s).

Definition stopCheckTimer (s : state) : state :=
  if checkTimer s
  then State (activeSeconds s) (activeTimer s) false (store s) (raised s)
  else s.

(** What can happen to a page after [init].  An interval callback carries
    what it reads: [activeTimer_fires visible hasFocus] is a run of the
    one-second callback that finds [document.visibilityState === 'visible']
    and [document.hasFocus()] as given; [checkTimer_fires now] and
    [forceAlertEval now] run [evaluateAlert] at [Date.now() = now].
    [visit_record r] is the service worker handling a ['visit-record']
    message.  Events are handled one at a time: a run of [evaluateAlert],
    which awaits the store, is taken to finish before the next event. *)
Inductive event : Type :=
| visibilitychange (visible : bool)
| focus
| blur
| activeTimer_fires (visible hasFocus : bool)
| checkTimer_fires (now : Z)
| forceAlertEval (now : Z)
| resetActive
| visit_record (record : visit)
| unload.

(** One run of [evaluateAlert] in a state. *)
Definition evaluate (S : SETTINGS_t) (origin0 : string) (now : Z) (s : state) : state :=
  let '(a, st') := evaluateAlert S origin0 (activeSeconds s) now (store s) in
  State (activeSeconds s) (activeTimer s) (checkTimer s) st'
        (raised s ++ match a with Some x => [(now, x)] | None => [] end).

(** The listeners and callbacks [init] installs.  A cleared interval runs
    no callback. *)
Definition step (S : SETTINGS_t) (origin0 : string) (s : state) (e : event) : state :=
  match e with
  | visibilitychange visible =>
      if visible then startActiveTimer s else stopActiveTimer s
  | focus => startActiveTimer s
  | blur => s
  | activeTimer_fires visible hasFocus =>
      if activeTimer s && (visible && hasFocus)
      then State (activeSeconds s + 1) (activeTimer s) (checkTimer s) (store s) (raised s)
      else s
  | checkTimer_fires now =>
      if checkTimer s then evaluate S origin0 now s else s
  | forceAlertEval now => evaluate S origin0 now s
  | resetActive => State 0 (activeTimer s) (checkTimer s) (store s) (raised s)
  | visit_record record =>
      State (activeSeconds s) (activeTimer s) (checkTimer s)
            (ServiceWorker.saveVisit (store s) record) (raised s)
  | unload => stopCheckTimer (stopActiveTimer s)
  end.

(** The timers as [init] leaves them, on a page found [visible] and
    [hasFocus] as given, over the store [st]. *)
Definition init (visible hasFocus : bool) (st : storage) : state :=
  let s := State 0 false false st [] in
  startCheckTimer (if visible && hasFocus then startActiveTimer s else s).

Definition run (S : SETTINGS_t) (origin0 : string) (s : state) (es : list event) : state :=
  fold_left (step S origin0) es s.

(** The callbacks of the one-second timer that found the page visible and
    focused. *)
Definition is_active_second (e : event) : bool :=
  match e with
  | activeTimer_fires visible hasFocus => visible && hasFocus
  | _ => false
  end.

Definition active_seconds (es : list event) : Z :=
  Z.of_nat (length (List.filter is_active_second es)).

(** Consecutive alerts lie at least [gap] milliseconds apart (an alert
    stamped [0] counts as none, as [lastTs &&] reads it). *)
Fixpoint spaced (gap : Z) (l : list (Z * alert)) : Prop :=
  match l with
  | [] => True
  | (t1, _) :: rest =>
      match rest with
      | [] => True
      | (t2, _) :: _ => (t1 <> 0 -> gap <= t2 - t1) /\ spaced gap rest
      end
  end.

(** The settings [evaluateAlert] works with once every [x || default] is
    taken. *)
Definition effective (S : SETTINGS_t) : SETTINGS_t :=
  MkSettings (alert_enabled S)
             (Js.or (alert_co2_threshold_g S) (alert_co2_threshold_g DEFAULT_SETTINGS))
             (Js.orZ (alert_time_threshold_s S) (alert_time_threshold_s DEFAULT_SETTINGS))
             (Js.orZ (alert_window_minutes S) (alert_window_minutes DEFAULT_SETTINGS))
             (Js.orZ (alert_cooldown_min S) (alert_cooldown_min DEFAULT_SETTINGS)).

(** The banner of an alert with the minutes [m] in its text. *)
Definition shown_with (m : Z) (a : alert) : alert :=
  Alert (alert_origin a) (alert_sum a) m.

End Page.

Module PageSamples.
Import Samples Page.

(** A page of [a.test], opened visible and focused: three heavy visits
    are stored, thirty active seconds pass, then the check timer runs. *)
Definition half_a_minute : list event :=
  map visit_record seconds_ago
  ++ replicate 30 (activeTimer_fires true true)
  ++ [checkTimer_fires now0].

(** The same, with a second check two minutes later. *)
Definition two_checks : list event :=
  half_a_minute ++ [checkTimer_fires (now0 + 10000);
                    visit_record (heavy "s4" (now0 + 100000) 6);
                    checkTimer_fires (now0 + 120000)].

End PageSamples.

(* ===================================================================== *)
(** ** server/server.js and api/ingest.js: the two ingest services *)
(* ===================================================================== *)

Module Wire.

(** The JSON body of an ingest request, as far as either service reads
    it.  A text field is a string or absent, a number field a number or
    absent ([null] reads like an absent field in every [x || d]); the
    counts are integers. *)
Record rec : Type := Rec {
  id : option string;
  ts : option string;
  url : option string;
  origin : option string;
  title : option string;
  transferBytes : option Z;
  transfer_bytes : option Z;
  resourceCount : option Z;
  resource_count : option Z;
  loadTimeMs : option Z;
  load_time_ms : option Z;
  estimatedCO2_g : option float;
  estimated_co2_g : option float
}.

(** [{}], what [bodyParser.json()] leaves in [req.body] when the request
    has no JSON body. *)
Definition empty_rec : rec :=
  Rec None None None None None None None None None None None None None.

(** A request: its method, the [x-api-key] header, [req.query.apiKey] and
    the parsed body. *)
Record request : Type := Request {
  method : string;
  x_api_key : option string;
  query_apiKey : option string;
  body : option rec
}.

(** What a handler answers: [res.json({status: 'ok'})], or
    [res.status(code).json({error})]. *)
Inductive response : Type :=
| json_ok
| json_error (code : Z) (error : string).

Definition status_of (r : response) : Z :=
  match r with
  | json_ok => 200
  | json_error code _ => code
  end.

(** [x || d] on a number field that may be absent. *)
Definition orZ (x : option Z) (d : Z) : Z := Js.orZ (default 0 x) d.

Definition or (x : option float) (d : float) : float :=
  match x with
  | Some v => Js.or v d
  | None => d
  end.

End Wire.

(** [server.js] over the in-memory database it falls back to when
    [better-sqlite3] cannot be loaded. *)
Module Server.
Import Wire.

(** A stored row of the in-memory database. *)
Record row : Type := Row {
  row_id : option string;
  row_ts : option string;
  row_url : option string;
  row_origin : option string;
  row_transferBytes : Z;
  row_resourceCount : Z;
  row_loadTimeMs : Z;
  row_estimatedCO2_g : float;
  raw : rec
}.

(** [InMemoryDB.visits], a [Map] from id to row, in insertion order. *)
Definition InMemoryDB : Type := list (option string * row).

(** [Map.prototype.set]: an existing key keeps its place. *)
Fixpoint Map_set (m : InMemoryDB) (k : option string) (v : row) : InMemoryDB :=
  match m with
  | [] => [(k, v)]
  | (k', v') :: m' =>
      if Js.strict_eq k' k then (k', v) :: m' else (k', v') :: Map_set m' k v
  end.

Fixpoint Map_get (m : InMemoryDB) (k : option string) : option row :=
  match m with
  | [] => None
  | (k', v') :: m' => if Js.strict_eq k' k then Some v' else Map_get m' k
  end.

Definition Map_keys (m : InMemoryDB) : list (option string) := map fst m.

(** [String.prototype.toLowerCase], [startsWith] and [includes] on the
    SQL texts, which are ASCII. *)
Definition lower (c : ascii) : ascii :=
  let n := N_of_ascii c in
  if ((65 <=? n) && (n <=? 90))%N then ascii_of_N (n + 32) else c.

Fixpoint toLowerCase (s : string) : string :=
  match s with
  | EmptyString => EmptyString
  | String c rest => String (lower c) (toLowerCase rest)
  end.

Definition startsWith (s p : string) : bool := String.prefix p s.

Fixpoint includes (s p : string) : bool :=
  String.prefix p s
  || match s with
     | EmptyString => false
     | String _ rest => includes rest p
     end.

(** The SQL texts of the three routes.  The one of [/aggregates] is a
    template literal that opens with a line break. *)
Definition ingest_sql : string :=
  "INSERT OR REPLACE INTO visits (id, ts, url, origin, transferBytes, resourceCount, loadTimeMs, estimatedCO2_g, raw) VALUES (?,?,?,?,?,?,?,?,?)".

Definition visits_sql : string :=
  "SELECT id, ts, origin, url, transferBytes, estimatedCO2_g FROM visits ORDER BY ts DESC LIMIT 1000".

Definition aggregates_select : string :=
  "SELECT substr(ts,1,10) as day, COUNT(*) as visits, SUM(transferBytes) as bytes, SUM(estimatedCO2_g) as co2".

Definition aggregates_sql : string :=
  String "010" ("    " +:+ aggregates_select
    +:+ String "010" ("    FROM visits GROUP BY day ORDER BY day DESC LIMIT 365"
    +:+ String "010" "  ")).

(** An object of a result set: a listed visit, or a day with its totals. *)
Inductive result : Type :=
| listed (id ts origin url : option string) (transferBytes : Z) (estimatedCO2_g : float)
| day_total (day : string) (visits bytes : Z) (co2 : float).

Section Prepare.

(** [String.prototype.localeCompare] is the host's collation, and the body
    of the by-day statement's [all] groups by [ts.slice(0, 10)] in a plain
    object and orders the days with it; both are taken as given. *)
Variable localeCompare : string -> string -> Z.
Variable select_by_day : InMemoryDB -> list result.

(** The arguments [/ingest] hands to [stmt.run]. *)
Definition row_of (r : rec) : row :=
  Row (id r) (ts r) (url r) (origin r)
      (orZ (transferBytes r) 0) (orZ (resourceCount r) 0)
      (orZ (loadTimeMs r) 0) (or (estimatedCO2_g r) 0%float) r.

(** The comparator [(a, b) => (b.ts || '').localeCompare(a.ts)] and the
    body of the list statement's [all]. *)
Definition ts_of (x : result) : option string :=
  match x with
  | listed _ ts _ _ _ _ => ts
  | day_total _ _ _ _ => None
  end.

Definition id_of (x : result) : option string :=
  match x with
  | listed id _ _ _ _ _ => id
  | day_total _ _ _ _ => None
  end.

Definition by_ts_desc (a b : result) : Z :=
  localeCompare (default ""%string (Js.or_str (ts_of b) None))
                (default "undefined"%string (ts_of a)).

Definition select_visits (db : InMemoryDB) : list result :=
  take 1000
    (Dashboard.sort_by by_ts_desc
       (map (fun e => let r := snd e in
                      listed (row_id r) (row_ts r) (row_origin r) (row_url r)
                             (row_transferBytes r) (row_estimatedCO2_g r))
            db)).

(** What [prepare] returns: an object with a [run], an [all], or both. *)
Record statement : Type := Statement {
  run : option (InMemoryDB -> row -> InMemoryDB);
  all : option (InMemoryDB -> list result)
}.

Definition prepare (sql : string) : statement :=
  let s := toLowerCase sql in
  if startsWith s "insert" || includes s "insert or replace"
  then Statement (Some (fun db r => Map_set db (row_id r) r)) None
  else if startsWith s "select" && includes s "substr(ts,1,10) as day"
  then Statement None (Some select_by_day)
  else if startsWith s "select"
  then Statement None (Some select_visits)
  else Statement (Some (fun db _ => db)) (Some (fun _ => [])).

(** [API_KEY = process.env.API_KEY || null] and [requireApiKey]. *)
Definition requireApiKey (API_KEY : option string) (req : request) : bool :=
  if negb (Js.truthy_str API_KEY) then true
  else Js.strict_eq (Js.or_str (x_api_key req) (query_apiKey req)) API_KEY.

(** [app.post('/ingest', requireApiKey, ...)].  Calling a [run] the
    statement does not have throws inside the [try]. *)
Definition POST_ingest (API_KEY : option string) (db : InMemoryDB) (req : request)
    : InMemoryDB * response :=
  if requireApiKey API_KEY req then
    let r := default empty_rec (body req) in
    match run (prepare ingest_sql) with
    | Some f => (f db (row_of r), json_ok)
    | None => (db, json_error 500 "stmt.run is not a function")
    end
  else (db, json_error 401 "invalid api key").

(** [app.get('/visits', ...)] and [app.get('/aggregates', ...)]; [None]
    when the statement has no [all] and the handler throws. *)
Definition GET_visits (db : InMemoryDB) : option (list result) :=
  (fun f => f db) <$> all (prepare visits_sql).

Definition GET_aggregates (db : InMemoryDB) : option (list result) :=
  (fun f => f db) <$> all (prepare aggregates_sql).

(** A sequence of [/ingest] requests, oldest first. *)
Definition POST_ingests (API_KEY : option string) (db : InMemoryDB)
    (reqs : list request) : InMemoryDB :=
  fold_left (fun db req => fst (POST_ingest API_KEY db req)) reqs db.

End Prepare.

(** The [/aggregates] text as it would read without the blanks around it. *)
Definition trimmed_aggregates_sql : string :=
  aggregates_select
    +:+ String "010" "    FROM visits GROUP BY day ORDER BY day DESC LIMIT 365".

End Server.

Module ApiIngest.
Import Wire.

(** The row handed to [supabase.from('visits').insert]. *)
Record payload : Type := Payload {
  p_id : option string;
  p_ts : string;
  p_url : option string;
  p_origin : option string;
  p_title : option string;
  p_transfer_bytes : Z;
  p_resource_count : Z;
  p_load_time_ms : Z;
  p_estimated_co2_g : float;
  p_raw : rec
}.

(** How the insert ends: with no error, with an [error] in the result, or
    by throwing. *)
Inductive inserted : Type :=
| no_error
| with_error
| thrown.

Definition payload_of (now_iso : string) (record : rec) : payload :=
  Payload (id record)
          (default now_iso (Js.or_str (ts record) None))
          (Js.or_str (url record) None)
          (Js.or_str (origin record) None)
          (Js.or_str (title record) None)
          (orZ (transferBytes record) (orZ (transfer_bytes record) 0))
          (orZ (resourceCount record) (orZ (resource_count record) 0))
          (orZ (loadTimeMs record) (orZ (load_time_ms record) 0))
          (or (estimatedCO2_g record) (or (estimated_co2_g record) 0%float))
          record.

(** [handler(req, res)]: the answer, and the row given to the database, if
    any.  [INGEST_API_KEY] is the environment variable, [now_iso] is
    [new Date().toISOString()], [insert] is the database's verdict. *)
Definition handler
    (INGEST_API_KEY : option string) (now_iso : string)
    (insert : payload -> inserted) (req : request) : response * option payload :=
  if negb (String.eqb (method req) "POST")
  then (json_error 405 "Method not allowed", None)
  else
    let key := Js.or_str (x_api_key req) (query_apiKey req) in
    if Js.truthy_str INGEST_API_KEY
       && (negb (Js.truthy_str key) || negb (Js.strict_eq key INGEST_API_KEY))
    then (json_error 401 "Unauthorized", None)
    else
      match body req with
      | None => (json_error 400 "Invalid record", None)
      | Some record =>
          if negb (Js.truthy_str (id record))
          then (json_error 400 "Invalid record", None)
          else
            let p := payload_of now_iso record in
            match insert p with
            | no_error => (json_ok, Some p)
            | with_error => (json_error 500 "DB insert failed", Some p)
            | thrown => (json_error 500 "server error", Some p)
            end
      end.

End ApiIngest.

Module WireSamples.
Import Wire.

(** A record as the extension posts it, and the same id with other
    numbers. *)
Definition posted (i : string) (n : Z) : rec :=
  Rec (Some i) (Some "2025-11-02T00:00:00.000Z"%string) (Some "https://a.test/"%string)
      (Some "a.test"%string) (Some "A"%string)
      (Some n) None (Some 12) None (Some 340) None (Some 2%float) None.

Definition post (key : option string) (r : rec) : request :=
  Request "POST" key None (Some r).

(** A collation and a by-day statement to run the samples with: the
    order of the code units, and no days. *)
Definition by_code_units (a b : string) : Z :=
  match String.compare a b with
  | Lt => -1
  | Eq => 0
  | Gt => 1
  end.

Definition no_days (db : Server.InMemoryDB) : list Server.result := [].

End WireSamples.

(* ===================================================================== *)
(** ** Facts about the object and list primitives *)
(* ===================================================================== *)

Section JsFacts.
Context {V : Type}.
Implicit Types (o : Js.obj V) (k : string) (v : V).

Lemma get_set_same o k v : Js.get (Js.set o k v) k = Some v.
Proof.
  induction o as [|[k' v'] o IH]; cbn.
  - by rewrite String.eqb_refl.
  - destruct (String.eqb k' k) eqn:E; cbn; rewrite E; auto.
Qed.

Lemma get_set_other o k k' v : k <> k' -> Js.get (Js.set o k v) k' = Js.get o k'.
Proof.
  intros Hne. induction o as [|[k0 v0] o IH]; cbn.
  - destruct (String.eqb k k') eqn:E; [|done].
    apply String.eqb_eq in E. done.
  - destruct (String.eqb k0 k) eqn:E; cbn.
    + apply String.eqb_eq in E. subst k0.
      destruct (String.eqb k k') eqn:E'; [|done].
      apply String.eqb_eq in E'. done.
    + by rewrite IH.
Qed.

Lemma get_None_not_key o k : Js.get o k = None <-> k ∉ map fst o.
Proof.
  induction o as [|[k0 v0] o IH]; cbn.
  - split; [intros _; apply not_elem_of_nil | done].
  - destruct (String.eqb k0 k) eqn:E.
    + apply String.eqb_eq in E. subst. split; [done|].
      intros H. exfalso. apply H. left.
    + apply String.eqb_neq in E. rewrite IH, not_elem_of_cons.
      split; [intros H; split; congruence | intros [_ H]; exact H].
Qed.

(** A new key goes to the end; an existing key keeps its place. *)
Lemma set_new_key o k v : Js.get o k = None -> Js.set o k v = o ++ [(k, v)].
Proof.
  induction o as [|[k0 v0] o IH]; cbn; [done|].
  destruct (String.eqb k0 k); [done|]. intros H. by rewrite IH.
Qed.

Lemma set_old_key o k v : is_Some (Js.get o k) -> map fst (Js.set o k v) = map fst o.
Proof.
  induction o as [|[k0 v0] o IH]; cbn.
  - by intros [? ?].
  - destruct (String.eqb k0 k); [done|]. intros H. cbn. by rewrite IH.
Qed.

End JsFacts.

Section ShiftFacts.
Import ServiceWorker Tally.

Lemma shift_while_over_last vs : shift_while_over vs = last_10000 vs.
Proof.
  unfold last_10000. induction vs as [|v vs IH]; [done|].
  cbn [shift_while_over].
  destruct (10000 <? Z.of_nat (length (v :: vs))) eqn:E.
  - apply Z.ltb_lt in E. rewrite IH. cbn [length] in *.
    replace (Z.to_nat (Z.of_nat (S (length vs)) - 10000))
      with (S (Z.to_nat (Z.of_nat (length vs) - 10000))) by lia.
    done.
  - apply Z.ltb_ge in E.
    replace (Z.to_nat (Z.of_nat (length (v :: vs)) - 10000)) with O by lia.
    done.
Qed.

Lemma last_10000_length vs :
  Z.of_nat (length (last_10000 vs)) = Z.min (Z.of_nat (length vs)) 10000.
Proof. unfold last_10000. rewrite length_drop. lia. Qed.

Lemma last_10000_short vs :
  Z.of_nat (length vs) <= 10000 -> last_10000 vs = vs.
Proof.
  intros H. unfold last_10000.
  by replace (Z.to_nat (Z.of_nat (length vs) - 10000)) with O by lia.
Qed.

(** Trimming before an append does not change the trimmed result. *)
Lemma last_10000_app vs ws :
  last_10000 (last_10000 vs ++ ws) = last_10000 (vs ++ ws).
Proof.
  unfold last_10000.
  rewrite !length_app, length_drop.
  destruct (decide (Z.of_nat (length vs) <= 10000)) as [H|H].
  - replace (Z.to_nat (Z.of_nat (length vs) - 10000)) with O by lia.
    rewrite drop_0. do 2 f_equal. lia.
  - rewrite !drop_app, drop_drop, length_drop.
    f_equal; f_equal; lia.
Qed.

Lemma last_10000_subseteq vs : last_10000 vs ⊆ vs.
Proof. apply subseteq_drop. Qed.

End ShiftFacts.

(* ===================================================================== *)
(** ** One [saveVisit], then a run of them *)
(* ===================================================================== *)

Section SaveVisitFacts.
Import ServiceWorker Tally.
Implicit Types (st : storage) (r v : visit) (rs vs : list visit) (k : string).

Lemma strict_eq_true a b : Js.strict_eq a b = true <-> a = b.
Proof.
  destruct a as [x|], b as [y|]; cbn; try (split; congruence).
  rewrite String.eqb_eq. split; congruence.
Qed.

Lemma already_stored_true vs r : already_stored vs r = true <-> id r ∈ ids vs.
Proof.
  unfold already_stored, ids. induction vs as [|v vs IH]; cbn.
  - split; [done | intros H; by apply elem_of_nil in H].
  - rewrite orb_true_iff, IH, strict_eq_true, elem_of_cons.
    split; (intros [H|H]; [left; congruence | by right]).
Qed.

Lemma already_stored_false vs r : already_stored vs r = false <-> id r ∉ ids vs.
Proof.
  rewrite <- already_stored_true. destruct (already_stored vs r); split; congruence.
Qed.

Lemma saveVisit_undated st r :
  ts r = None ->
  local_visits (saveVisit st r) = local_visits st /\
  local_aggregates (saveVisit st r) = local_aggregates st.
Proof. intros H. unfold saveVisit. cbn. by rewrite H. Qed.

Lemma saveVisit_factor st r : factor_of (saveVisit st r) = factor_of st.
Proof. unfold saveVisit, factor_of. cbn. by destruct (ts r). Qed.

Lemma saveVisit_lastAlertTimes st r :
  local_lastAlertTimes (saveVisit st r) = local_lastAlertTimes st.
Proof. unfold saveVisit. cbn. by destruct (ts r). Qed.

(** The log after one [saveVisit] that reaches the store. *)
Lemma saveVisit_visits st r :
  dated r = true ->
  local_visits (saveVisit st r) =
    last_10000 (if already_stored (local_visits st) r then local_visits st
                else local_visits st ++ [estimated (factor_of st) r]).
Proof.
  unfold dated, saveVisit. cbn. destruct (ts r); [|done]. intros _. cbn.
  apply shift_while_over_last.
Qed.

(** The aggregates after one [saveVisit]: a function of the aggregates
    and the factor before it and of the record, never of the log. *)
Lemma saveVisit_aggregates st r :
  local_aggregates (saveVisit st r) =
    match ts r with
    | None => local_aggregates st
    | Some t =>
        let ag := local_aggregates st in
        let n := default 0 (transferBytes r) in
        let c := estimate (factor_of st) r in
        let k := Js.key (origin r) in
        Aggregates (Js.set (byOrigin ag) k (bump (Js.get (byOrigin ag) k) n c))
                   (<[day_of t := bump (byDay ag !! day_of t) n c]> (byDay ag))
    end.
Proof. unfold saveVisit. cbn. by destruct (ts r). Qed.

Lemma saveVisit_get_origin st r k :
  Js.get (byOrigin (local_aggregates (saveVisit st r))) k =
    if dated r && of_origin k r
    then Some (bump (Js.get (byOrigin (local_aggregates st)) k)
                    (default 0 (transferBytes r)) (estimate (factor_of st) r))
    else Js.get (byOrigin (local_aggregates st)) k.
Proof.
  rewrite saveVisit_aggregates. unfold dated, of_origin.
  destruct (ts r) as [t|]; [|done]. cbn.
  destruct (String.eqb (Js.key (origin r)) k) eqn:E.
  - apply String.eqb_eq in E. subst k. apply get_set_same.
  - apply String.eqb_neq in E. by apply get_set_other.
Qed.

Lemma saveVisit_get_day st r d :
  byDay (local_aggregates (saveVisit st r)) !! d =
    if of_day d r
    then Some (bump (byDay (local_aggregates st) !! d)
                    (default 0 (transferBytes r)) (estimate (factor_of st) r))
    else byDay (local_aggregates st) !! d.
Proof.
  rewrite saveVisit_aggregates. unfold of_day.
  destruct (ts r) as [t|]; [|done]. cbn.
  destruct (day_of t =? d) eqn:E.
  - apply Z.eqb_eq in E. subst d. apply lookup_insert_eq.
  - apply Z.eqb_neq in E. by apply lookup_insert_ne.
Qed.

Lemma saveVisits_cons st r rs :
  saveVisits st (r :: rs) = saveVisits (saveVisit st r) rs.
Proof. done. Qed.

Lemma saveVisits_snoc st rs r :
  saveVisits st (rs ++ [r]) = saveVisit (saveVisits st rs) r.
Proof. unfold saveVisits. by rewrite fold_left_app. Qed.

Lemma saveVisits_factor st rs : factor_of (saveVisits st rs) = factor_of st.
Proof.
  revert st. induction rs as [|r rs IH]; intros st; [done|].
  by rewrite saveVisits_cons, IH, saveVisit_factor.
Qed.

(** Every bucket is the bucket before the run with the run's records of
    that key added, in order: duplicates and evicted records included. *)
Lemma saveVisits_get_origin st rs k :
  Js.get (byOrigin (local_aggregates (saveVisits st rs))) k =
    add_all (factor_of st) (Js.get (byOrigin (local_aggregates st)) k)
            (List.filter (fun r => dated r && of_origin k r) rs).
Proof.
  revert st. induction rs as [|r rs IH]; intros st; [done|].
  rewrite saveVisits_cons, IH, saveVisit_factor, saveVisit_get_origin. cbn.
  by destruct (dated r && of_origin k r).
Qed.

Lemma saveVisits_get_day st rs d :
  byDay (local_aggregates (saveVisits st rs)) !! d =
    add_all (factor_of st) (byDay (local_aggregates st) !! d)
            (List.filter (of_day d) rs).
Proof.
  revert st. induction rs as [|r rs IH]; intros st; [done|].
  rewrite saveVisits_cons, IH, saveVisit_factor, saveVisit_get_day. cbn.
  by destruct (of_day d r).
Qed.

Lemma add_all_visitCount f b rs :
  visitCount (add_all f b rs) = visitCount b + count rs.
Proof.
  unfold count. revert b. induction rs as [|r rs IH]; intros b; cbn [add_all fold_left length].
  - lia.
  - fold (add_all f (Some (bump b (default 0 (transferBytes r)) (estimate f r))) rs).
    rewrite IH. destruct b; cbn; lia.
Qed.

Lemma add_all_totalBytes f b rs :
  totalBytes (add_all f b rs) = totalBytes b + sum_bytes rs.
Proof.
  revert b. induction rs as [|r rs IH]; intros b; cbn [add_all fold_left sum_bytes foldr].
  - lia.
  - fold (add_all f (Some (bump b (default 0 (transferBytes r)) (estimate f r))) rs).
    fold (sum_bytes rs). rewrite IH. destruct b; cbn; lia.
Qed.

Lemma add_all_totalCO2 f b rs :
  totalCO2_g (add_all f b rs) =
    weighted_sum_from f (totalCO2_g b) (map (fun r => default 0 (transferBytes r)) rs).
Proof.
  revert b. induction rs as [|r rs IH]; intros b; [done|].
  cbn [add_all fold_left map weighted_sum_from].
  fold (add_all f (Some (bump b (default 0 (transferBytes r)) (estimate f r))) rs).
  fold (weighted_sum_from f).
  rewrite IH. by destruct b.
Qed.

Lemma add_all_is_Some f b rs : rs <> [] -> is_Some (add_all f b rs).
Proof.
  destruct rs as [|r rs]; [done|]. intros _. cbn [add_all fold_left].
  generalize (bump b (default 0 (transferBytes r)) (estimate f r)).
  induction rs as [|r' rs IH]; intros b'; cbn [fold_left]; [by eexists | apply IH].
Qed.

(** *** The log *)

Lemma last_10000_snoc vs v :
  last_10000 (vs ++ [v]) =
    drop (Z.to_nat (Z.of_nat (length vs) + 1 - 10000)) vs ++ [v].
Proof.
  unfold last_10000. rewrite length_app. cbn [length].
  rewrite drop_app_le by lia. do 2 f_equal. lia.
Qed.

Lemma last_10000_idem vs : last_10000 (last_10000 vs) = last_10000 vs.
Proof. apply last_10000_short. rewrite last_10000_length. lia. Qed.

Lemma saveVisit_length_stored st r :
  dated r = true -> count (local_visits (saveVisit st r)) <= 10000.
Proof.
  intros H. rewrite saveVisit_visits by done. unfold count.
  rewrite last_10000_length. lia.
Qed.

Lemma saveVisit_length st r :
  count (local_visits st) <= 10000 -> count (local_visits (saveVisit st r)) <= 10000.
Proof.
  intros H. destruct (dated r) eqn:E; [by apply saveVisit_length_stored|].
  unfold dated in E. destruct (ts r) eqn:E'; [done|].
  by rewrite (proj1 (saveVisit_undated st r E')).
Qed.

Lemma saveVisits_length st rs :
  count (local_visits st) <= 10000 -> count (local_visits (saveVisits st rs)) <= 10000.
Proof.
  revert st. induction rs as [|r rs IH]; intros st H; [done|].
  rewrite saveVisits_cons. apply IH. by apply saveVisit_length.
Qed.

Lemma saveVisit_new st r :
  dated r = true -> id r ∉ ids (local_visits st) ->
  local_visits (saveVisit st r) =
    last_10000 (local_visits st ++ [estimated (factor_of st) r]).
Proof.
  intros Hd Hid. rewrite saveVisit_visits by done.
  apply already_stored_false in Hid. by rewrite Hid.
Qed.

Lemma saveVisit_known st r :
  dated r = true -> id r ∈ ids (local_visits st) ->
  local_visits (saveVisit st r) = last_10000 (local_visits st).
Proof.
  intros Hd Hid. rewrite saveVisit_visits by done.
  apply already_stored_true in Hid. by rewrite Hid.
Qed.

Lemma ids_app vs ws : ids (vs ++ ws) = ids vs ++ ids ws.
Proof. apply map_app. Qed.

Lemma ids_estimated f rs : ids (map (estimated f) rs) = ids rs.
Proof. unfold ids. rewrite map_map. done. Qed.

Lemma ids_last_10000 vs : ids (last_10000 vs) ⊆ ids vs.
Proof.
  unfold ids. intros x Hx. apply list_elem_of_fmap in Hx as (v & -> & Hv).
  apply list_elem_of_fmap. exists v. split; [done|]. by apply last_10000_subseteq.
Qed.

(** A run of new, pairwise distinct, dated records: the log is the last
    10000 of the old log followed by the records as stored. *)
Lemma saveVisits_log st rs :
  count (local_visits st) <= 10000 ->
  Forall (fun r => dated r = true) rs ->
  NoDup (ids rs) ->
  (forall x, x ∈ ids (local_visits st) -> x ∉ ids rs) ->
  local_visits (saveVisits st rs) =
    last_10000 (local_visits st ++ map (estimated (factor_of st)) rs).
Proof.
  revert st. induction rs as [|r rs IH]; intros st Hlen Hd Hnd Hfresh.
  - cbn. rewrite app_nil_r. symmetry. by apply last_10000_short.
  - apply Forall_cons in Hd as [Hr Hd]. apply NoDup_cons in Hnd as [Hr' Hnd].
    assert (Hnew : id r ∉ ids (local_visits st)).
    { intros Hin. apply (Hfresh _ Hin). left. }
    rewrite saveVisits_cons, IH; try done.
    + rewrite saveVisit_factor, saveVisit_new by done.
      rewrite last_10000_app, <- app_assoc. done.
    + by apply saveVisit_length.
    + intros x Hx. rewrite saveVisit_new in Hx by done.
      apply ids_last_10000 in Hx. rewrite ids_app in Hx.
      apply elem_of_app in Hx as [Hx|Hx].
      * intros Hin. apply (Hfresh _ Hx). by right.
      * cbn in Hx. apply list_elem_of_singleton in Hx. by subst x.
Qed.

Lemma saveVisits_log_from_empty rs :
  Forall (fun r => dated r = true) rs ->
  NoDup (ids rs) ->
  local_visits (saveVisits empty_storage rs) =
    last_10000 (map (estimated DEFAULTS_co2Factor_g_per_byte) rs).
Proof.
  intros Hd Hnd. rewrite saveVisits_log; try done.
  intros x Hx. by apply elem_of_nil in Hx.
Qed.

(** A second [saveVisit] of the same record leaves the log alone. *)
Lemma saveVisit_again_visits st r :
  count (local_visits st) <= 10000 -> dated r = true ->
  local_visits (saveVisit (saveVisit st r) r) = local_visits (saveVisit st r).
Proof.
  intros Hlen Hd.
  assert (Hin : id r ∈ ids (local_visits (saveVisit st r))).
  { destruct (already_stored (local_visits st) r) eqn:E.
    - rewrite saveVisit_known by (done || by apply already_stored_true).
      rewrite last_10000_short by done. by apply already_stored_true.
    - rewrite saveVisit_new by (done || by apply already_stored_false).
      rewrite last_10000_snoc, ids_app. apply elem_of_app. right. left. }
  rewrite (saveVisit_known (saveVisit st r)) by done.
  apply last_10000_short. by apply saveVisit_length_stored.
Qed.

(** ...but both aggregate buckets of the record are bumped again. *)
Lemma saveVisit_again_counts st r t :
  ts r = Some t ->
  let st2 := saveVisit (saveVisit st r) r in
  visitCount (Js.get (byOrigin (local_aggregates st2)) (Js.key (origin r))) =
    visitCount (Js.get (byOrigin (local_aggregates st)) (Js.key (origin r))) + 2
  /\ visitCount (byDay (local_aggregates st2) !! day_of t) =
    visitCount (byDay (local_aggregates st) !! day_of t) + 2.
Proof.
  intros Ht st2. subst st2.
  change (saveVisit (saveVisit st r) r) with (saveVisits st [r; r]).
  rewrite saveVisits_get_origin, saveVisits_get_day, !add_all_visitCount.
  cbn [List.filter]. unfold dated, of_origin, of_day. rewrite Ht.
  rewrite !String.eqb_refl, !Z.eqb_refl. cbn [andb]. unfold count. cbn [length]. lia.
Qed.

End SaveVisitFacts.

(* ===================================================================== *)
(** ** The log and the aggregates: capacity, duplicates, counts *)
(* ===================================================================== *)

Section LogAndAggregates.
Import ServiceWorker Tally.
Implicit Types (st : storage) (r v : visit) (rs vs : list visit) (k : string).

Lemma of_origin_estimated f k r : of_origin k (estimated f r) = of_origin k r.
Proof. done. Qed.

Lemma of_day_estimated f d r : of_day d (estimated f r) = of_day d r.
Proof. done. Qed.

Lemma filter_estimated (p : visit -> bool) f rs :
  (forall r, p (estimated f r) = p r) ->
  List.filter p (map (estimated f) rs) = map (estimated f) (List.filter p rs).
Proof.
  intros Hp. induction rs as [|r rs IH]; [done|].
  cbn. rewrite Hp. destruct (p r); cbn; by rewrite IH.
Qed.

Lemma filter_dated (p : visit -> bool) rs :
  Forall (fun r => dated r = true) rs ->
  List.filter (fun r => dated r && p r) rs = List.filter p rs.
Proof.
  induction 1 as [|r rs Hr _ IH]; [done|].
  cbn. rewrite Hr, IH. done.
Qed.

Lemma count_filter_drop (p : visit -> bool) n vs :
  count (List.filter p (drop n vs)) <= count (List.filter p vs).
Proof.
  unfold count. revert n. induction vs as [|v vs IH]; intros [|n]; cbn; try lia.
  specialize (IH n). destruct (p v); cbn; lia.
Qed.

Lemma count_map {A} (f : A -> visit) l : count (map f l) = Z.of_nat (length l).
Proof. unfold count. by rewrite length_map. Qed.

(** The log of a run of [10000 + n] new records is the run without its
    first [n] records. *)
Lemma last_10000_drop vs n :
  count vs = 10000 + Z.of_nat n -> last_10000 vs = drop n vs.
Proof. unfold count, last_10000. intros ->. f_equal. lia. Qed.

Lemma NoDup_ids_take_drop rs n r :
  NoDup (ids rs) -> r ∈ take n rs -> id r ∉ ids (drop n rs).
Proof.
  intros Hnd Hr Hin.
  rewrite <- (take_drop n rs) in Hnd. rewrite ids_app in Hnd.
  apply NoDup_app in Hnd as (_ & Hdisj & _).
  apply (Hdisj (id r)); [|done].
  unfold ids. apply list_elem_of_fmap. by exists r.
Qed.

Lemma saveVisits_from_empty_origin rs k :
  Forall (fun r => dated r = true) rs ->
  Js.get (byOrigin (local_aggregates (saveVisits empty_storage rs))) k =
    add_all DEFAULTS_co2Factor_g_per_byte None (List.filter (of_origin k) rs).
Proof. intros Hd. by rewrite saveVisits_get_origin, filter_dated. Qed.

Lemma saveVisits_from_empty_day rs d :
  byDay (local_aggregates (saveVisits empty_storage rs)) !! d =
    add_all DEFAULTS_co2Factor_g_per_byte None (List.filter (of_day d) rs).
Proof. by rewrite saveVisits_get_day. Qed.

(** [saveVisit] keeps the ids of the log pairwise distinct. *)
Lemma saveVisit_ids_NoDup st r :
  NoDup (ids (local_visits st)) -> NoDup (ids (local_visits (saveVisit st r))).
Proof.
  intros Hnd. destruct (dated r) eqn:Hd.
  - rewrite saveVisit_visits by done.
    assert (H : NoDup (ids (if already_stored (local_visits st) r then local_visits st
                            else local_visits st ++ [estimated (factor_of st) r]))).
    { destruct (already_stored (local_visits st) r) eqn:E; [done|].
      apply already_stored_false in E.
      rewrite ids_app. apply NoDup_app. split; [done|]. split.
      - intros x Hx Hin. cbn in Hin. apply list_elem_of_singleton in Hin. by subst x.
      - apply NoDup_singleton. }
    eapply sublist_NoDup; [exact H|].
    unfold last_10000, ids. apply (fmap_sublist id), sublist_drop.
  - unfold dated in Hd. destruct (ts r) eqn:Hts; [done|].
    by rewrite (proj1 (saveVisit_undated st r Hts)).
Qed.

(** X1 (invariant I1): after any run of [saveVisit] calls on the empty
    store, no two records of the log share an id. *)
Theorem log_ids_are_unique rs :
  NoDup (ids (local_visits (saveVisits empty_storage rs))).
Proof.
  induction rs as [|r rs IH] using rev_ind; [constructor|].
  rewrite saveVisits_snoc. by apply saveVisit_ids_NoDup.
Qed.

(** X2 (the log half of P1): a second [saveVisit] of a record leaves the
    log as the first one left it, whatever was ingested before. *)
Theorem log_ignores_a_repeated_saveVisit rs r :
  let st := saveVisits empty_storage rs in
  local_visits (saveVisit (saveVisit st r) r) = local_visits (saveVisit st r).
Proof.
  intros st. destruct (dated r) eqn:Hd.
  - apply saveVisit_again_visits; [|done]. by apply saveVisits_length.
  - unfold dated in Hd. destruct (ts r) eqn:Hts; [done|].
    by rewrite !(proj1 (saveVisit_undated _ r Hts)).
Qed.

(** The sample run: [n] dated records with pairwise distinct ids. *)
Lemma run_ids_NoDup n : NoDup (ids (Samples.run n)).
Proof.
  unfold ids, Samples.run. rewrite map_map. cbn [id Samples.numbered].
  apply (NoDup_fmap_2 (fun i : nat => Some (pretty i))). apply NoDup_seq.
Qed.

Lemma run_dated n : Forall (fun r => dated r = true) (Samples.run n).
Proof. unfold Samples.run. apply Forall_forall. intros r Hr.
  apply list_elem_of_fmap in Hr as (i & -> & _). done. Qed.

Lemma run_length n : length (Samples.run n) = n.
Proof. unfold Samples.run. by rewrite length_map, length_seq. Qed.

Lemma run_count n : count (Samples.run n) = Z.of_nat n.
Proof. unfold count. by rewrite run_length. Qed.

Lemma run_of_origin n : List.filter (of_origin "a.test") (Samples.run n) = Samples.run n.
Proof.
  unfold Samples.run. induction (seq 0 n) as [|i l IH]; [done|].
  cbn [map List.filter]. rewrite IH. done.
Qed.

(** C1: ingesting the same record twice should leave the log one record
    longer and every aggregate total as after one ingest.  Evaluated on
    [visit_a] and the empty store: the second [saveVisit] leaves the log
    as it is, a single record, but the origin bucket and the day bucket
    both go from [{1, 2000000, 2}] to [{2, 4000000, 4}]. *)
Theorem duplicate_saveVisit_is_aggregated_twice :
  let once := saveVisit empty_storage Samples.visit_a in
  let twice := saveVisit once Samples.visit_a in
  local_visits twice = local_visits once
  /\ count (local_visits twice) = 1
  /\ Js.get (byOrigin (local_aggregates once)) "a.test" = Some (Bucket 1 2000000 2)
  /\ Js.get (byOrigin (local_aggregates twice)) "a.test" = Some (Bucket 2 4000000 4)
  /\ byDay (local_aggregates once) !! 20394 = Some (Bucket 1 2000000 2)
  /\ byDay (local_aggregates twice) !! 20394 = Some (Bucket 2 4000000 4).
Proof. vm_compute. repeat split; reflexivity. Qed.

(** C4: the log never holds more than 10000 records; an append that would
    exceed it drops the oldest records until 10000 remain; the aggregates a
    [saveVisit] writes do not depend on the log, so eviction leaves them
    alone; after 10005 distinct records the log is the run without its
    first five, and every bucket counts all 10005. *)
Theorem log_is_bounded_and_aggregates_are_cumulative :
  (forall rs, count (local_visits (saveVisits empty_storage rs)) <= 10000)
  /\ (forall st rs,
        count (local_visits st) <= 10000 ->
        count (local_visits (saveVisits st rs)) <= 10000)
  /\ (forall st r,
        dated r = true -> id r ∉ ids (local_visits st) ->
        local_visits (saveVisit st r) =
          last_10000 (local_visits st ++ [estimated (factor_of st) r])
        /\ count (local_visits (saveVisit st r)) =
             Z.min (count (local_visits st) + 1) 10000)
  /\ (forall st st' r,
        local_aggregates st = local_aggregates st' ->
        factor_of st = factor_of st' ->
        local_aggregates (saveVisit st r) = local_aggregates (saveVisit st' r))
  /\ (forall rs,
        count rs = 10000 + 5 ->
        NoDup (ids rs) ->
        Forall (fun r => dated r = true) rs ->
        let st := saveVisits empty_storage rs in
        let f := DEFAULTS_co2Factor_g_per_byte in
        local_visits st = map (estimated f) (drop 5 rs)
        /\ count (local_visits st) = 10000
        /\ (forall r, r ∈ take 5 rs -> id r ∉ ids (local_visits st))
        /\ (forall k,
              let b := Js.get (byOrigin (local_aggregates st)) k in
              let mine := List.filter (of_origin k) rs in
              b = add_all f None mine
              /\ visitCount b = count mine
              /\ totalBytes b = sum_bytes mine)
        /\ (forall d,
              let b := byDay (local_aggregates st) !! d in
              let mine := List.filter (of_day d) rs in
              b = add_all f None mine
              /\ visitCount b = count mine
              /\ totalBytes b = sum_bytes mine)).
Proof.
  split; [|split; [|split; [|split]]].
  - intros rs. by apply saveVisits_length.
  - intros st rs. apply saveVisits_length.
  - intros st r Hd Hid. rewrite saveVisit_new by done. split; [done|].
    unfold count. rewrite last_10000_length, length_app. cbn [length]. lia.
  - intros st st' r Hag Hf. by rewrite !saveVisit_aggregates, Hag, Hf.
  - intros rs Hlen Hnd Hd st f.
    assert (Hlog : local_visits st = map (estimated f) (drop 5 rs)).
    { subst st f. rewrite saveVisits_log_from_empty by done.
      rewrite (last_10000_drop _ 5) by (rewrite count_map; unfold count in Hlen; lia).
      symmetry. apply (fmap_drop (estimated DEFAULTS_co2Factor_g_per_byte)). }
    split; [done|]. split; [|split; [|split]].
    + rewrite Hlog, count_map, length_drop. unfold count in Hlen. lia.
    + intros r Hr. rewrite Hlog, ids_estimated. by apply NoDup_ids_take_drop.
    + intros k b mine. subst b mine st f.
      rewrite saveVisits_from_empty_origin by done.
      rewrite add_all_visitCount, add_all_totalBytes. cbn. auto with lia.
    + intros d b mine. subst b mine st f.
      rewrite saveVisits_from_empty_day.
      rewrite add_all_visitCount, add_all_totalBytes. cbn. auto with lia.
Qed.

(** The 10005-record case on the sample run: the log starts at record
    ["5"] and the bucket of [a.test] counts 10005 visits. *)
Lemma log_is_bounded_and_aggregates_are_cumulative_witness :
  let rs := Samples.run (Z.to_nat 10005) in
  let st := saveVisits empty_storage rs in
  (count rs = 10000 + 5 /\ NoDup (ids rs) /\ Forall (fun r => dated r = true) rs)
  /\ count (local_visits st) = 10000
  /\ (id <$> head (local_visits st)) = Some (Some "5"%string)
  /\ visitCount (Js.get (byOrigin (local_aggregates st)) "a.test") = 10005.
Proof.
  intros rs st.
  assert (Hrs : count rs = 10000 + 5 /\ NoDup (ids rs) /\ Forall (fun r => dated r = true) rs).
  { split; [|split].
    - subst rs. rewrite run_count. lia.
    - apply run_ids_NoDup.
    - apply run_dated. }
  split; [exact Hrs|].
  destruct Hrs as (Hlen & Hnd & Hd).
  destruct log_is_bounded_and_aggregates_are_cumulative as (_ & _ & _ & _ & H).
  destruct (H rs Hlen Hnd Hd) as (Hlog & Hsize & _ & Horigin & _).
  split; [exact Hsize|]. split.
  - fold st in Hlog. rewrite Hlog. subst rs. vm_compute. reflexivity.
  - destruct (Horigin "a.test"%string) as (_ & Hcount & _).
    fold st in Hcount. rewrite Hcount. subst rs.
    rewrite run_of_origin, run_count. lia.
Defined.

(** C5, as stated, fails once a record has been evicted: after 10001
    distinct visits of [a.test] on one day the log holds 10000 of them and
    both counters say 10001. *)
Lemma counters_exceed_the_log_after_eviction :
  let st := saveVisits empty_storage (Samples.run (Z.to_nat 10001)) in
  visitCount (Js.get (byOrigin (local_aggregates st)) "a.test") = 10001
  /\ count (List.filter (of_origin "a.test") (local_visits st)) = 10000
  /\ visitCount (byDay (local_aggregates st) !! 20394) = 10001
  /\ count (List.filter (of_day 20394) (local_visits st)) = 10000
  /\ ~ counters_count_the_log st.
Proof.
  intros st.
  assert (Hlog : local_visits st =
            map (estimated DEFAULTS_co2Factor_g_per_byte)
                (drop 1 (Samples.run (Z.to_nat 10001)))).
  { subst st. rewrite saveVisits_log_from_empty by (apply run_dated || apply run_ids_NoDup).
    rewrite (last_10000_drop _ 1) by (rewrite count_map, run_length; lia).
    symmetry. apply (fmap_drop (estimated DEFAULTS_co2Factor_g_per_byte)). }
  assert (H1 : visitCount (Js.get (byOrigin (local_aggregates st)) "a.test") = 10001).
  { subst st. rewrite saveVisits_from_empty_origin by apply run_dated.
    rewrite add_all_visitCount, run_of_origin, run_count. cbn. lia. }
  assert (H2 : count (List.filter (of_origin "a.test") (local_visits st)) = 10000).
  { rewrite Hlog. vm_compute. reflexivity. }
  assert (H3 : visitCount (byDay (local_aggregates st) !! 20394) = 10001).
  { subst st. rewrite saveVisits_from_empty_day, add_all_visitCount.
    vm_compute. reflexivity. }
  assert (H4 : count (List.filter (of_day 20394) (local_visits st)) = 10000).
  { rewrite Hlog. vm_compute. reflexivity. }
  clearbody st.
  split; [exact H1|]. split; [exact H2|]. split; [exact H3|]. split; [exact H4|].
  intros [Ho _]. specialize (Ho "a.test"%string). rewrite H1, H2 in Ho. lia.
Qed.

(** C5, amended: after ingesting dated records with pairwise distinct ids
    into an empty store, each counter is the number of ingested records of
    its key, evicted ones included; it is never below the number of such
    records in the log, and equals it while at most 10000 records were
    ingested. *)
Theorem counters_count_every_ingested_record rs :
  NoDup (ids rs) ->
  Forall (fun r => dated r = true) rs ->
  let st := saveVisits empty_storage rs in
  (forall k,
     visitCount (Js.get (byOrigin (local_aggregates st)) k) = count (List.filter (of_origin k) rs)
     /\ count (List.filter (of_origin k) (local_visits st)) <=
          visitCount (Js.get (byOrigin (local_aggregates st)) k))
  /\ (forall d,
        visitCount (byDay (local_aggregates st) !! d) = count (List.filter (of_day d) rs)
        /\ count (List.filter (of_day d) (local_visits st)) <=
             visitCount (byDay (local_aggregates st) !! d))
  /\ (count rs <= 10000 -> counters_count_the_log st).
Proof.
  intros Hnd Hd st.
  set (f := DEFAULTS_co2Factor_g_per_byte).
  assert (Hlog : local_visits st = last_10000 (map (estimated f) rs))
    by (by apply saveVisits_log_from_empty).
  assert (Ho : forall k, visitCount (Js.get (byOrigin (local_aggregates st)) k) =
                         count (List.filter (of_origin k) rs)).
  { intros k. subst st. rewrite saveVisits_from_empty_origin by done.
    rewrite add_all_visitCount. cbn. lia. }
  assert (Hday : forall d, visitCount (byDay (local_aggregates st) !! d) =
                           count (List.filter (of_day d) rs)).
  { intros d. subst st. rewrite saveVisits_from_empty_day.
    rewrite add_all_visitCount. cbn. lia. }
  assert (Hle : forall p : visit -> bool, (forall r, p (estimated f r) = p r) ->
                  count (List.filter p (local_visits st)) <= count (List.filter p rs)).
  { intros p Hp. rewrite Hlog. unfold last_10000.
    etrans; [apply count_filter_drop|].
    rewrite filter_estimated by done. rewrite count_map. unfold count. lia. }
  split; [|split].
  - intros k. split; [apply Ho|]. rewrite Ho. by apply Hle.
  - intros d. split; [apply Hday|]. rewrite Hday. by apply Hle.
  - intros Hshort. split.
    + intros k. rewrite Ho, Hlog, last_10000_short by (by rewrite length_map).
      rewrite filter_estimated by done. by rewrite count_map.
    + intros d. rewrite Hday, Hlog, last_10000_short by (by rewrite length_map).
      rewrite filter_estimated by done. by rewrite count_map.
Qed.

(** Three records, nothing evicted: counter and log agree on 3. *)
Lemma counters_count_every_ingested_record_witness :
  let rs := Samples.run 3 in
  let st := saveVisits empty_storage rs in
  (NoDup (ids rs) /\ Forall (fun r => dated r = true) rs)
  /\ visitCount (Js.get (byOrigin (local_aggregates st)) "a.test") = 3
  /\ count (List.filter (of_origin "a.test") (local_visits st)) = 3.
Proof.
  intros rs st.
  assert (Hrs : NoDup (ids rs) /\ Forall (fun r => dated r = true) rs)
    by (split; [apply run_ids_NoDup | apply run_dated]).
  split; [exact Hrs|]. destruct Hrs as [Hnd Hd].
  destruct (counters_count_every_ingested_record rs Hnd Hd) as (Ho & _ & Hshort).
  destruct (Ho "a.test"%string) as [Hcount _]. fold st in Hcount.
  assert (Hlen : count rs <= 10000) by (vm_compute; discriminate).
  destruct (Hshort Hlen) as [Hlog _]. fold st in Hlog.
  rewrite <- Hlog, Hcount. split; reflexivity.
Defined.

(** C6, as stated, fails for a record without origin: [saveVisit] stores
    it and counts it under the key ["undefined"]. *)
Lemma record_without_origin_is_stored :
  let r := Samples.visit_without_origin in
  let st := saveVisit empty_storage r in
  origin r = None
  /\ local_visits st = [estimated DEFAULTS_co2Factor_g_per_byte r]
  /\ local_visits st <> local_visits empty_storage
  /\ Js.get (byOrigin (local_aggregates st)) "undefined" = Some (Bucket 1 2000000 2)
  /\ snd (on_visit_record empty_storage r) = status_ok.
Proof. vm_compute. repeat split; try reflexivity. discriminate. Qed.

(** C6, amended: a dated record without origin whose id is new is not
    rejected.  The listener answers [{status: 'ok'}], the record, with its
    estimate filled in, is the newest entry of the log, and the bucket
    ["undefined"] counts one more visit. *)
Theorem record_without_origin_is_accepted st r :
  origin r = None ->
  dated r = true ->
  id r ∉ ids (local_visits st) ->
  let st' := fst (on_visit_record st r) in
  snd (on_visit_record st r) = status_ok
  /\ last (local_visits st') = Some (estimated (factor_of st) r)
  /\ visitCount (Js.get (byOrigin (local_aggregates st')) "undefined") =
       visitCount (Js.get (byOrigin (local_aggregates st)) "undefined") + 1.
Proof.
  intros Ho Hd Hid st'. subst st'. cbn [on_visit_record fst snd].
  split; [done|]. split.
  - rewrite saveVisit_new, last_10000_snoc by done. apply last_snoc.
  - rewrite saveVisit_get_origin. unfold of_origin. rewrite Hd, Ho. cbn.
    destruct (Js.get (byOrigin (local_aggregates st)) "undefined"); cbn; lia.
Qed.

(** A record without origin arriving after [visit_a]. *)
Lemma record_without_origin_is_accepted_witness :
  let r := Samples.visit_without_origin in
  let st := saveVisit empty_storage Samples.visit_a in
  (origin r = None /\ dated r = true /\ id r ∉ ids (local_visits st))
  /\ snd (on_visit_record st r) = status_ok
  /\ last (local_visits (fst (on_visit_record st r))) =
       Some (estimated (factor_of st) r).
Proof.
  intros r st.
  assert (H : origin r = None /\ dated r = true /\ id r ∉ ids (local_visits st)).
  { split; [reflexivity|]. split; [reflexivity|].
    apply already_stored_false. vm_compute. reflexivity. }
  split; [exact H|]. destruct H as (Ho & Hd & Hid).
  destruct (record_without_origin_is_accepted st r Ho Hd Hid) as (Hok & Hlast & _).
  split; [exact Hok | exact Hlast].
Defined.

(** C9: [saveVisit] computes the estimate from the bytes and the factor,
    whatever estimate the caller sent; the stored record carries
    [(transferBytes || 0) * co2Factor]; and every CO2 total is the
    factor-weighted running sum of the byte counts aggregated into its
    bucket. *)
Theorem saveVisit_recomputes_the_estimate :
  (forall st r x, saveVisit st (with_estimatedCO2_g r x) = saveVisit st r)
  /\ (forall st r,
        dated r = true -> id r ∉ ids (local_visits st) ->
        exists v,
          last (local_visits (saveVisit st r)) = Some v
          /\ id v = id r
          /\ estimatedCO2_g v =
               Some (PrimFloat.mul (Js.of_Z (default 0 (transferBytes r))) (factor_of st)))
  /\ (forall st r v,
        v ∈ local_visits (saveVisit st r) ->
        v ∈ local_visits st \/ v = estimated (factor_of st) r)
  /\ (forall st rs k,
        totalCO2_g (Js.get (byOrigin (local_aggregates (saveVisits st rs))) k) =
          weighted_sum_from (factor_of st)
            (totalCO2_g (Js.get (byOrigin (local_aggregates st)) k))
            (map (fun r => default 0 (transferBytes r))
                 (List.filter (fun r => dated r && of_origin k r) rs)))
  /\ (forall st rs d,
        totalCO2_g (byDay (local_aggregates (saveVisits st rs)) !! d) =
          weighted_sum_from (factor_of st)
            (totalCO2_g (byDay (local_aggregates st) !! d))
            (map (fun r => default 0 (transferBytes r)) (List.filter (of_day d) rs)))
  /\ (forall rs k,
        totalCO2_g (Js.get (byOrigin (local_aggregates (saveVisits empty_storage rs))) k) =
          weighted_sum DEFAULTS_co2Factor_g_per_byte
            (map (fun r => default 0 (transferBytes r))
                 (List.filter (fun r => dated r && of_origin k r) rs))).
Proof.
  split; [|split; [|split; [|split; [|split]]]].
  - intros st r x. reflexivity.
  - intros st r Hd Hid. exists (estimated (factor_of st) r).
    rewrite saveVisit_new, last_10000_snoc by done.
    split; [apply last_snoc | done].
  - intros st r v Hv. destruct (dated r) eqn:Hd.
    + rewrite saveVisit_visits in Hv by done.
      apply last_10000_subseteq in Hv.
      destruct (already_stored (local_visits st) r); [by left|].
      apply elem_of_app in Hv as [Hv|Hv]; [by left|].
      right. by apply list_elem_of_singleton in Hv.
    + unfold dated in Hd. destruct (ts r) eqn:Hts; [done|].
      rewrite (proj1 (saveVisit_undated st r Hts)) in Hv. by left.
  - intros st rs k. by rewrite saveVisits_get_origin, add_all_totalCO2.
  - intros st rs d. by rewrite saveVisits_get_day, add_all_totalCO2.
  - intros rs k. by rewrite saveVisits_get_origin, add_all_totalCO2.
Qed.

(** A caller sends [visit_a] with the estimate 99; 2 is stored. *)
Lemma saveVisit_recomputes_the_estimate_witness :
  let r := with_estimatedCO2_g Samples.visit_a (Some 99%float) in
  (dated r = true /\ id r ∉ ids (local_visits empty_storage))
  /\ exists v,
       last (local_visits (saveVisit empty_storage r)) = Some v
       /\ estimatedCO2_g v = Some 2%float.
Proof.
  intros r.
  assert (H : dated r = true /\ id r ∉ ids (local_visits empty_storage)).
  { split; [reflexivity|]. apply not_elem_of_nil. }
  split; [exact H|]. destruct H as [Hd Hid].
  destruct saveVisit_recomputes_the_estimate as (_ & Hstored & _).
  destruct (Hstored empty_storage r Hd Hid) as (v & Hlast & _ & Hest).
  exists v. split; [exact Hlast|]. rewrite Hest. vm_compute. reflexivity.
Defined.

End LogAndAggregates.

(* ===================================================================== *)
(** ** The dashboard's snapshots *)
(* ===================================================================== *)

Section Snapshots.
Import ServiceWorker Tally Dashboard.

(** *** [safeParseVisits] *)



(** C10: [safeParseVisits] should return an array for every input.  On
    the string ["null"], which [JSON.parse] reads as [null], it returns
    [null]; on ["true"] it returns [true].  (On an array, an object, an
    absent value and a malformed string it answers as the claim says.) *)
Theorem safeParseVisits_returns_parsed_non_arrays :
  safeParseVisits JSON_parse_atoms (VString "null") = VNull
  /\ isArray (safeParseVisits JSON_parse_atoms (VString "null")) = false
  /\ safeParseVisits JSON_parse_atoms (VString "true") = VBoolean true
  /\ safeParseVisits JSON_parse_atoms (VString "{oops") = VArray []
  /\ safeParseVisits JSON_parse_atoms VUndefined = VArray []
  /\ safeParseVisits JSON_parse_atoms (VObject []) = VArray [VObject []]
  /\ safeParseVisits JSON_parse_atoms (VArray [VNull]) = VArray [VNull].
Proof. repeat split; reflexivity. Qed.

(** *** The seven day columns *)

Lemma day_of_back today i : day_of (today - i * 86400000) = day_of today - i.
Proof.
  unfold day_of.
  replace (today - i * 86400000) with (today + (- i) * 86400000) by lia.
  rewrite Z.div_add by lia. lia.
Qed.

Lemma setDate_back_fixed off today i :
  setDate_back (fixed_zone off) today i = today - i * 86400000.
Proof. unfold setDate_back, fixed_zone. cbn. lia. Qed.

(** C7: the chart should show one column per calendar day for the seven
    days ending today.  Its labels are made by setting the local date
    back six, five, ..., no days and printing the UTC date of the result.
    Where the local clock keeps one offset from UTC these are the seven
    consecutive UTC days ending today.  In Los Angeles on Sunday
    2 November 2025 at 16:30, the day the clocks went back, they are
    2025-10-27 to 2025-11-01 and 2025-11-03: 2025-11-02 is skipped, and
    the 5 g visit of that morning, stored under that day, is in no
    column.  With the offset held at -8 hours the same instant gives the
    seven consecutive days and the visit in the sixth column. *)
Theorem co2PerDay_skips_the_day_the_clocks_go_back :
  let today := Samples.sunday_afternoon in
  let st := saveVisit empty_storage Samples.sunday_visit in
  (forall off now,
     daysArr (fixed_zone off) now = map (fun i => day_of now - i) [6; 5; 4; 3; 2; 1; 0])
  /\ day_of today = 20395
  /\ daysArr Samples.los_angeles today =
       [20388; 20389; 20390; 20391; 20392; 20393; 20395]
  /\ (co2 <$> byDay (local_aggregates st) !! 20394) = Some 5%float
  /\ co2PerDay Samples.los_angeles today (local_visits st) (local_aggregates st) =
       [0; 0; 0; 0; 0; 0; 0]%float
  /\ daysArr (fixed_zone (-28800000)) today =
       [20389; 20390; 20391; 20392; 20393; 20394; 20395]
  /\ co2PerDay (fixed_zone (-28800000)) today (local_visits st) (local_aggregates st) =
       [0; 0; 0; 0; 0; 5; 0]%float.
Proof.
  intros today st. split.
  - intros off now. unfold daysArr, daysArr_of. cbn [countdown map Z.of_nat].
    rewrite !setDate_back_fixed, !day_of_back. done.
  - subst today st. vm_compute. repeat split; reflexivity.
Qed.

(** *** The top sites *)

Section Sorting.
Context {A : Type} (cmp : A -> A -> Z).

Lemma insert_by_perm x l : insert_by cmp x l ≡ₚ x :: l.
Proof.
  induction l as [|y l IH]; cbn; [done|].
  destruct (cmp x y <=? 0); [done|].
  rewrite IH. apply Permutation_swap.
Qed.

Lemma sort_by_perm l : sort_by cmp l ≡ₚ l.
Proof.
  induction l as [|x l IH]; cbn; [done|].
  by rewrite insert_by_perm, IH.
Qed.

(** Inserting [x] leaves alone the elements of every class [p] that [x]
    is moved past. *)
Lemma insert_by_filter (p : A -> bool) x l :
  (forall y, cmp x y > 0 -> p x = true -> p y = false) ->
  List.filter p (insert_by cmp x l) = List.filter p (x :: l).
Proof.
  intros Hpast. induction l as [|y l IH]; [done|].
  cbn [insert_by]. destruct (cmp x y <=? 0) eqn:E; [done|].
  apply Z.leb_gt in E. cbn [List.filter] in *. rewrite IH.
  destruct (p x) eqn:Hx; [|done].
  by rewrite (Hpast y) by (lia || done).
Qed.

End Sorting.

Lemma by_bytes_desc_le a b : by_bytes_desc a b <= 0 <-> not_fewer_bytes a b.
Proof.
  unfold by_bytes_desc, not_fewer_bytes, Js.orZ.
  destruct (bytes (snd a) =? 0) eqn:Ea, (bytes (snd b) =? 0) eqn:Eb;
    rewrite ?Z.eqb_eq, ?Z.eqb_neq in *; lia.
Qed.

Lemma insert_by_bytes_sorted x l :
  StronglySorted not_fewer_bytes l ->
  StronglySorted not_fewer_bytes (insert_by by_bytes_desc x l).
Proof.
  induction 1 as [|y l Hl IH Hy]; cbn [insert_by].
  - repeat constructor.
  - destruct (by_bytes_desc x y <=? 0) eqn:E.
    + apply Z.leb_le, by_bytes_desc_le in E.
      constructor; [by constructor|].
      constructor; [done|].
      eapply Forall_impl; [exact Hy|]. unfold not_fewer_bytes in *. intros; lia.
    + apply Z.leb_gt in E.
      assert (Hyx : not_fewer_bytes y x).
      { pose proof (by_bytes_desc_le x y). unfold by_bytes_desc, not_fewer_bytes, Js.orZ in *.
        destruct (bytes (snd x) =? 0) eqn:Ex, (bytes (snd y) =? 0) eqn:Ey;
          rewrite ?Z.eqb_eq, ?Z.eqb_neq in *; lia. }
      constructor; [done|].
      rewrite insert_by_perm. by constructor.
Qed.

Lemma sort_by_bytes_sorted l : StronglySorted not_fewer_bytes (sort_by by_bytes_desc l).
Proof.
  induction l as [|x l IH]; cbn; [constructor|]. by apply insert_by_bytes_sorted.
Qed.

Lemma sort_by_bytes_stable n l :
  List.filter (has_bytes n) (sort_by by_bytes_desc l) = List.filter (has_bytes n) l.
Proof.
  induction l as [|x l IH]; [done|].
  cbn [sort_by foldr]. fold (sort_by by_bytes_desc l).
  rewrite insert_by_filter.
  - cbn [List.filter]. by rewrite IH.
  - intros y Hgt Hx. unfold has_bytes in *. apply Z.eqb_eq in Hx. apply Z.eqb_neq.
    pose proof (by_bytes_desc_le x y) as H. unfold not_fewer_bytes in H. lia.
Qed.

(** A list in descending byte order is determined by its classes of equal
    byte total: two such lists with the same classes, each in the same
    order, are equal.  So every stable sort returns what [sort_by] does. *)
Lemma descending_order_is_determined l1 l2 :
  StronglySorted not_fewer_bytes l1 ->
  StronglySorted not_fewer_bytes l2 ->
  (forall n, List.filter (has_bytes n) l1 = List.filter (has_bytes n) l2) ->
  l1 = l2.
Proof.
  intros H1. revert l2. induction H1 as [|x l1 Hs1 IH Hx]; intros l2 H2 Hcls.
  - destruct l2 as [|y l2]; [done|].
    specialize (Hcls (bytes (snd y))). cbn in Hcls.
    unfold has_bytes in Hcls at 1. by rewrite Z.eqb_refl in Hcls.
  - destruct H2 as [|y l2 Hs2 Hy].
    { specialize (Hcls (bytes (snd x))). cbn in Hcls.
      unfold has_bytes in Hcls at 1. by rewrite Z.eqb_refl in Hcls. }
    assert (Hin : forall l l' z, In z l ->
              (forall n, List.filter (has_bytes n) l = List.filter (has_bytes n) l') -> In z l').
    { intros l l' z Hz Hc.
      assert (Hf : In z (List.filter (has_bytes (bytes (snd z))) l)).
      { apply filter_In. split; [done|]. unfold has_bytes. apply Z.eqb_refl. }
      rewrite Hc in Hf. by apply filter_In in Hf as [? _]. }
    assert (Hkey : bytes (snd x) = bytes (snd y)).
    { assert (Hxy : In x (y :: l2)) by (apply (Hin (x :: l1)); [by left | done]).
      assert (Hyx : In y (x :: l1)).
      { apply (Hin (y :: l2)); [by left|]. intros n. by rewrite Hcls. }
      rewrite Forall_forall in Hx, Hy. unfold not_fewer_bytes in *.
      destruct Hxy as [->|Hxy]; [done|]. destruct Hyx as [->|Hyx]; [done|].
      apply list_elem_of_In in Hxy, Hyx.
      specialize (Hx _ Hyx). specialize (Hy _ Hxy). lia. }
    assert (Hxy : x = y).
    { specialize (Hcls (bytes (snd x))). cbn in Hcls.
      assert (Hbx : has_bytes (bytes (snd x)) x = true) by apply Z.eqb_refl.
      assert (Hby : has_bytes (bytes (snd x)) y = true)
        by (unfold has_bytes; rewrite Hkey; apply Z.eqb_refl).
      rewrite Hbx, Hby in Hcls. congruence. }
    subst y. f_equal. apply IH; [done|]. intros n.
    specialize (Hcls n). cbn in Hcls. destruct (has_bytes n x); congruence.
Qed.

(** C8, as stated, fails: the source cuts the sorted entries after ten,
    [slice(0, 10)], and takes no [topK] from anyone.  With [a.test]: 300,
    [b.test]: 300, [c.test]: 100 the top sites are all three origins, not
    the two the claim names for [topK = 2]. *)
Lemma top_sites_are_not_cut_at_two :
  let st := saveVisits empty_storage Samples.three_sites in
  map (fun e => (fst e, bytes (snd e))) (byOrigin (local_aggregates st)) =
    [("a.test", 300); ("b.test", 300); ("c.test", 100)]%string
  /\ map fst (top (local_visits st) (local_aggregates st)) =
       ["a.test"; "b.test"; "c.test"]%string
  /\ map fst (top (local_visits st) (local_aggregates st)) <> ["a.test"; "b.test"]%string
  /\ length (top (local_visits st) (local_aggregates st)) = 3%nat.
Proof.
  intros st. subst st.
  assert (H : map fst (top (local_visits (saveVisits empty_storage Samples.three_sites))
                         (local_aggregates (saveVisits empty_storage Samples.three_sites))) =
              ["a.test"; "b.test"; "c.test"]%string) by (vm_compute; reflexivity).
  split; [vm_compute; reflexivity|]. split; [exact H|]. split.
  - rewrite H. discriminate.
  - vm_compute. reflexivity.
Qed.

(** C8, amended: the top sites are the entries of [byOrigin] sorted by
    descending byte total, entries with equal totals in the order their
    buckets were created, cut after ten (the source's [slice(0, 10)]);
    no other arrangement of the entries is descending and keeps that
    order.  With [a.test]: 300, [b.test]: 300, [c.test]: 100 and the
    bucket of [a.test] created first, the top sites are [a.test],
    [b.test], [c.test]. *)
Theorem top_sites_are_sorted_by_bytes_first_seen_first vs ag :
  let entries := byOrigin_used vs ag in
  let sorted := byOrigin_sorted vs ag in
  sorted ≡ₚ entries
  /\ StronglySorted not_fewer_bytes sorted
  /\ (forall n, List.filter (has_bytes n) sorted = List.filter (has_bytes n) entries)
  /\ (forall l,
        StronglySorted not_fewer_bytes l ->
        (forall n, List.filter (has_bytes n) l = List.filter (has_bytes n) entries) ->
        l = sorted)
  /\ top vs ag = take 10 sorted
  /\ (length (top vs ag) <= 10)%nat
  /\ ((length entries <= 10)%nat -> top vs ag = sorted)
  /\ (forall (o : Js.obj bucket) k b,
        (Js.get o k = None -> Js.set o k b = o ++ [(k, b)])
        /\ (is_Some (Js.get o k) -> map fst (Js.set o k b) = map fst o))
  /\ (let st := saveVisits empty_storage Samples.three_sites in
      map (fun e => (fst e, bytes (snd e))) (byOrigin (local_aggregates st)) =
        [("a.test", 300); ("b.test", 300); ("c.test", 100)]%string
      /\ map fst (top (local_visits st) (local_aggregates st)) =
           ["a.test"; "b.test"; "c.test"]%string).
Proof.
  intros entries sorted. subst entries sorted. unfold byOrigin_sorted, top.
  split; [apply sort_by_perm|]. split; [apply sort_by_bytes_sorted|].
  split; [intros n; apply sort_by_bytes_stable|].
  split; [|split; [done|split; [|split; [|split]]]].
  - intros l Hl Hcls. apply descending_order_is_determined; [done | apply sort_by_bytes_sorted |].
    intros n. by rewrite Hcls, sort_by_bytes_stable.
  - rewrite length_take. lia.
  - intros Hlen. apply take_ge. by rewrite sort_by_perm.
  - intros o k b. split; [apply set_new_key | apply set_old_key].
  - vm_compute. repeat split; reflexivity.
Qed.

End Snapshots.

(* ===================================================================== *)
(** ** The CO2 alert *)
(* ===================================================================== *)

Section Alert.
Import ServiceWorker Tally ContentScript.

(** The test of the loop in [getCumulativeCO2ForOrigin], spelled out. *)
Lemma counted_true S origin0 now v :
  counted S origin0 now v = true <->
  exists t, ts v = Some t /\ t <> 0 /\ now - windowMs S <= t
            /\ Js.or_str (origin v) (url_hostname v) = Some origin0.
Proof.
  unfold counted. destruct (ts v) as [t|].
  - destruct (t =? 0) eqn:E0.
    + apply Z.eqb_eq in E0. split; [done|]. intros (t' & [= <-] & Hne & _). done.
    + apply Z.eqb_neq in E0. destruct (now - t >? windowMs S) eqn:Ew.
      * apply Z.gtb_lt in Ew. split; [done|]. intros (t' & [= <-] & _ & Hw & _). lia.
      * rewrite Z.gtb_ltb in Ew. apply Z.ltb_ge in Ew.
        rewrite strict_eq_true. split.
        -- intros H. exists t. repeat split; (done || lia).
        -- by intros (t' & _ & _ & _ & H).
  - split; [done|]. by intros (t & [=] & _).
Qed.

Lemma windowMs_tenths S :
  alert_window_minutes S <> 0 -> windowMs S = alert_window_minutes S * 10000.
Proof.
  intros H. unfold windowMs, Js.orZ. apply Z.eqb_neq in H. rewrite H. lia.
Qed.

Lemma cooldownMs_tenths S :
  alert_cooldown_min S <> 0 -> cooldownMs S = alert_cooldown_min S * 10000.
Proof.
  intros H. unfold cooldownMs, Js.orZ. apply Z.eqb_neq in H. rewrite H. lia.
Qed.

Lemma sum_from_filter S origin0 now vs acc :
  fold_left
    (fun sum v => if counted S origin0 now v then PrimFloat.add sum (visit_co2 v) else sum)
    vs acc =
  fold_left (fun sum v => PrimFloat.add sum (visit_co2 v))
    (List.filter (counted S origin0 now) vs) acc.
Proof.
  revert acc. induction vs as [|v vs IH]; intros acc; [done|].
  cbn [fold_left List.filter]. destruct (counted S origin0 now v); cbn [fold_left]; apply IH.
Qed.

(** X6: the sum [getCumulativeCO2ForOrigin] resolves with is the sum, in
    log order, of the estimates of exactly the records in the window:
    those with a truthy time stamp not more than [windowMs] before [now]
    and with [v.origin || hostname(v.url)] equal to the page's origin.
    Such a record at the end of the log adds its estimate; any other
    record, wherever it stands in the log, can be taken out without
    changing the sum.  Nothing bounds the time stamp from above: a record
    stamped after [now] is in the window. *)
Theorem windowed_sum_adds_the_records_in_the_window S origin0 now :
  let sum := getCumulativeCO2ForOrigin S origin0 now in
  let in_window v :=
    exists t, ts v = Some t /\ t <> 0 /\ now - windowMs S <= t
              /\ Js.or_str (origin v) (url_hostname v) = Some origin0 in
  sum [] = 0%float
  /\ (forall vs v, in_window v -> sum (vs ++ [v]) = PrimFloat.add (sum vs) (visit_co2 v))
  /\ (forall vs1 v vs2, ~ in_window v -> sum (vs1 ++ v :: vs2) = sum (vs1 ++ vs2))
  /\ (forall vs,
        sum vs = fold_left (fun acc v => PrimFloat.add acc (visit_co2 v))
                   (List.filter (counted S origin0 now) vs) 0%float)
  /\ (forall v, counted S origin0 now v = true <-> in_window v)
  /\ (forall v t,
        ts v = Some t -> t <> 0 -> now <= t -> 0 <= alert_window_minutes S ->
        Js.or_str (origin v) (url_hostname v) = Some origin0 ->
        in_window v).
Proof.
  intros sum in_window. subst sum.
  split; [done|]. split; [|split; [|split; [|split]]].
  - intros vs v Hv. apply counted_true in Hv.
    unfold getCumulativeCO2ForOrigin. rewrite fold_left_app. cbn [fold_left].
    by rewrite Hv.
  - intros vs1 v vs2 Hv.
    assert (E : counted S origin0 now v = false).
    { destruct (counted S origin0 now v) eqn:E; [|done]. by apply counted_true in E. }
    unfold getCumulativeCO2ForOrigin. rewrite !fold_left_app. cbn [fold_left].
    by rewrite E.
  - intros vs. apply sum_from_filter.
  - intros v. apply counted_true.
  - intros v t Ht Hne Hle Hmin Ho. exists t. repeat split; try done.
    assert (0 <= windowMs S); [|lia].
    unfold windowMs, Js.orZ. change (alert_window_minutes DEFAULT_SETTINGS) with 10.
    destruct (alert_window_minutes S =? 0); lia.
Qed.

(** [evaluateAlert] as one condition. *)
Lemma evaluateAlert_cases S origin0 activeSeconds now st :
  let sum := getCumulativeCO2ForOrigin S origin0 now (local_visits st) in
  let lastTs := lastTs_of (local_lastAlertTimes st) origin0 in
  evaluateAlert S origin0 activeSeconds now st =
    if alert_enabled S
       && (Js.orZ (alert_time_threshold_s S) 30 <=? activeSeconds)
       && negb (PrimFloat.ltb sum (Js.or (alert_co2_threshold_g S) 10))
       && ((lastTs =? 0) || (cooldownMs S <=? now - lastTs))
    then (Some (Alert origin0 sum (alert_window_minutes S)),
          Storage (local_visits st) (local_aggregates st) (local_settings st)
                  (<[origin0 := now]> (local_lastAlertTimes st)))
    else (None, st).
Proof.
  intros sum lastTs. unfold evaluateAlert. fold sum. fold lastTs.
  destruct (alert_enabled S); [|done]. cbn [negb andb].
  change (alert_time_threshold_s DEFAULT_SETTINGS) with 30.
  change (alert_co2_threshold_g DEFAULT_SETTINGS) with 10%float.
  rewrite (Z.leb_antisym activeSeconds).
  destruct (activeSeconds <? Js.orZ (alert_time_threshold_s S) 30); [done|]. cbn [negb andb].
  destruct (PrimFloat.ltb sum (Js.or (alert_co2_threshold_g S) 10)); [done|]. cbn [negb andb].
  rewrite (Z.leb_antisym (now - lastTs)).
  destruct (lastTs =? 0); [done|]. cbn [negb andb orb].
  by destruct (now - lastTs <? cooldownMs S).
Qed.

(** X3 (invariant I4): when an alert fires, [lastAlertTimes[origin]]
    becomes [now], and with a cooldown setting that is not negative this is
    not earlier than the time it held. *)
Theorem lastAlertAt_only_moves_forward S origin0 activeSeconds now st a st' :
  evaluateAlert S origin0 activeSeconds now st = (Some a, st') ->
  0 <= alert_cooldown_min S ->
  local_lastAlertTimes st' !! origin0 = Some now
  /\ (forall t, local_lastAlertTimes st !! origin0 = Some t -> t <> 0 -> t <= now).
Proof.
  intros Hfire Hcool. rewrite evaluateAlert_cases in Hfire.
  destruct (alert_enabled S && _ && _ && _) eqn:E; [|done].
  injection Hfire as _ <-. cbn [local_lastAlertTimes].
  split; [apply lookup_insert_eq|].
  intros t Ht Hne. unfold lastTs_of in E. rewrite Ht in E. cbn [default] in E.
  apply andb_true_iff in E as [_ E]. apply orb_true_iff in E as [E|E].
  - apply Z.eqb_eq in E. done.
  - apply Z.leb_le in E. unfold cooldownMs, Js.orZ in E.
    destruct (alert_cooldown_min S =? 0); cbn in E; lia.
Qed.

(** The alert of the P4 scenario records [now0]. *)
Lemma lastAlertAt_only_moves_forward_witness :
  let S := Samples.settings_P4 in
  let st := saveVisits empty_storage Samples.seconds_ago in
  let r := evaluateAlert S "a.test" 60 Samples.now0 st in
  (r = (Some (Alert "a.test" 6 10), snd r) /\ 0 <= alert_cooldown_min S)
  /\ local_lastAlertTimes (snd r) !! "a.test"%string = Some Samples.now0.
Proof.
  intros S st r.
  assert (H : r = (Some (Alert "a.test" 6 10), snd r) /\ 0 <= alert_cooldown_min S).
  { split; [vm_compute; reflexivity | vm_compute; discriminate]. }
  split; [exact H|]. destruct H as [Hr Hc].
  destruct (lastAlertAt_only_moves_forward S "a.test" 60 Samples.now0 st _ _ Hr Hc)
    as [Hnow _]. exact Hnow.
Defined.

(** X4 (the second half of C3): once [cooldownMinutes] literal minutes
    have passed since the last alert, a tick with the page active long
    enough and the sum not below the threshold raises an alert. *)
Theorem alert_fires_once_the_cooldown_minutes_have_passed
    S origin0 activeSeconds now st :
  alert_enabled S = true ->
  Js.orZ (alert_time_threshold_s S) 30 <= activeSeconds ->
  PrimFloat.ltb (getCumulativeCO2ForOrigin S origin0 now (local_visits st))
                (Js.or (alert_co2_threshold_g S) 10) = false ->
  0 < alert_cooldown_min S ->
  alert_cooldown_min S * 60000 <= now - lastTs_of (local_lastAlertTimes st) origin0 ->
  fst (evaluateAlert S origin0 activeSeconds now st) =
    Some (Alert origin0 (getCumulativeCO2ForOrigin S origin0 now (local_visits st))
                (alert_window_minutes S)).
Proof.
  intros Hen Hact Hsum Hpos Hlate. rewrite evaluateAlert_cases.
  rewrite Hen, Hsum. apply Z.leb_le in Hact. rewrite Hact. cbn [andb negb].
  rewrite cooldownMs_tenths by lia.
  replace (alert_cooldown_min S * 10000 <=? _) with true
    by (symmetry; apply Z.leb_le; lia).
  by rewrite orb_true_r.
Qed.

(** Five minutes after the alert at [now0], with 6 g in the window. *)
Lemma alert_fires_once_the_cooldown_minutes_have_passed_witness :
  let S := Samples.settings_P4 in
  let st0 := saveVisits empty_storage Samples.seconds_ago in
  let st1 := snd (evaluateAlert S "a.test" 60 Samples.now0 st0) in
  let later := Samples.now0 + 300000 in
  let st2 := saveVisit st1 (Samples.heavy "s5" (later - 1000) 6) in
  lastTs_of (local_lastAlertTimes st2) "a.test" = Samples.now0
  /\ fst (evaluateAlert S "a.test" 400 later st2) = Some (Alert "a.test" 6 10).
Proof.
  intros S st0 st1 later st2.
  split; [vm_compute; reflexivity|].
  rewrite (alert_fires_once_the_cooldown_minutes_have_passed S "a.test" 400 later st2).
  - vm_compute. reflexivity.
  - reflexivity.
  - vm_compute. discriminate.
  - vm_compute. reflexivity.
  - reflexivity.
  - vm_compute. discriminate.
Defined.

(** C2: the window should be [windowMinutes] minutes long, and three 2 g
    visits within the last five minutes should raise one alert with sum 6.
    The source multiplies the minutes by [10 * 1000]: with
    [windowMinutes = 10] the window is 100 seconds.  Visits two to four
    minutes old are not summed and nothing fires; the same visits at most
    ninety seconds old give sum [6] and the alert, but only once the page
    has been active for the default 30 seconds, because the configured
    [0] is falsy and read as the default. *)
Theorem alert_window_is_ten_seconds_per_minute :
  let S := Samples.settings_P4 in
  let now := Samples.now0 in
  let old := saveVisits empty_storage Samples.minutes_ago in
  let fresh := saveVisits empty_storage Samples.seconds_ago in
  windowMs S = 100000
  /\ map estimatedCO2_g (local_visits old) = [Some 2; Some 2; Some 2]%float
  /\ getCumulativeCO2ForOrigin S "a.test" now (local_visits old) = 0%float
  /\ fst (evaluateAlert S "a.test" 60 now old) = None
  /\ getCumulativeCO2ForOrigin S "a.test" now (local_visits fresh) = 6%float
  /\ fst (evaluateAlert S "a.test" 60 now fresh) = Some (Alert "a.test" 6 10)
  /\ fst (evaluateAlert S "a.test" 29 now fresh) = None.
Proof. vm_compute. repeat split; reflexivity. Qed.

(** C3: after an alert no second one should fire within [cooldownMinutes]
    minutes.  The source multiplies the cooldown minutes by [10 * 1000]:
    with the default of 5 the cooldown is 50 seconds.  After the alert at
    [now0] a tick 40 seconds later is suppressed, but the tick one minute
    later, with 6 g in the window again, raises a second alert. *)
Theorem alert_cooldown_is_ten_seconds_per_minute :
  let S := Samples.settings_P4 in
  let now := Samples.now0 in
  let st0 := saveVisits empty_storage Samples.seconds_ago in
  let st1 := snd (evaluateAlert S "a.test" 60 now st0) in
  let st2 := saveVisit st1 (Samples.heavy "s4" (now + 35000) 4) in
  cooldownMs S = 50000
  /\ fst (evaluateAlert S "a.test" 60 now st0) = Some (Alert "a.test" 6 10)
  /\ local_lastAlertTimes st1 !! "a.test"%string = Some now
  /\ getCumulativeCO2ForOrigin S "a.test" (now + 40000) (local_visits st2) = 8%float
  /\ fst (evaluateAlert S "a.test" 100 (now + 40000) st2) = None
  /\ getCumulativeCO2ForOrigin S "a.test" (now + 60000) (local_visits st2) = 6%float
  /\ fst (evaluateAlert S "a.test" 120 (now + 60000) st2) = Some (Alert "a.test" 6 10).
Proof. vm_compute. repeat split; reflexivity. Qed.

End Alert.

(* ===================================================================== *)
(** ** The remote sync *)
(* ===================================================================== *)

Section SyncFacts.
Import Sync.

Lemma strip_final_slash_app_slash u : strip_final_slash (u +:+ "/") = u.
Proof.
  induction u as [|c u IH]; [done|].
  change (String c u +:+ "/") with (String c (u +:+ "/")).
  destruct u as [|d u]; [done|].
  change (strip_final_slash (String c (String d u +:+ "/")))
    with (String c (strip_final_slash (String d u +:+ "/"))).
  by rewrite IH.
Qed.

Lemma strip_final_slash_app u c :
  c <> "/"%char -> strip_final_slash (u +:+ String c "") = u +:+ String c "".
Proof.
  intros Hc. induction u as [|d u IH].
  - change ("" +:+ String c "") with (String c "").
    cbn [strip_final_slash]. apply Ascii.eqb_neq in Hc. by rewrite Hc.
  - change (String d u +:+ String c "") with (String d (u +:+ String c "")).
    destruct u as [|e u].
    + change ("" +:+ String c "") with (String c "") in *.
      change (strip_final_slash (String d (String c "")))
        with (String d (strip_final_slash (String c ""))).
      by rewrite IH.
    + change (strip_final_slash (String d (String e u +:+ String c "")))
        with (String d (strip_final_slash (String e u +:+ String c ""))).
      by rewrite IH.
Qed.

Lemma append_assoc_str (a b c : string) : (a +:+ b) +:+ c = a +:+ (b +:+ c).
Proof.
  induction a as [|x a IH]; [done|].
  change (String x ((a +:+ b) +:+ c) = String x (a +:+ (b +:+ c))). by rewrite IH.
Qed.

(** X7: whatever settings are stored, [syncEnabled: false] included, every
    [saveVisit] posts the record: to the stored [serverUrl] without one
    final slash plus [/ingest], to [http://localhost:4000/ingest] when no
    [serverUrl] is stored; the [x-api-key] header goes along exactly when a
    non-empty [apiKey] is stored.  A [serverUrl] written with or without a
    final slash gives the same address. *)
Theorem saveVisit_always_syncs current :
  (exists base,
     saveVisit_request current =
       Some (Request (base +:+ "/ingest")
                     (if Js.truthy_str (apiKey current) then apiKey current else None))
     /\ base = strip_final_slash
                 (default "http://localhost:4000"%string
                    (Js.or_str (serverUrl current) None)))
  /\ (forall u c enabled key,
        c <> "/"%char ->
        saveVisit_request (SyncKeys enabled (Some (u +:+ String c "" +:+ "/")) key) =
        saveVisit_request (SyncKeys enabled (Some (u +:+ String c "")) key)).
Proof.
  assert (Hurl : forall x : option string,
            Js.or_str x (Some "http://localhost:4000"%string) =
              Some (default "http://localhost:4000"%string (Js.or_str x None))
            /\ Js.truthy_str (Js.or_str x (Some "http://localhost:4000"%string)) = true).
  { intros [u|]; unfold Js.or_str, Js.truthy_str; [|done].
    by destruct (negb (String.eqb u "")) eqn:E. }
  assert (Hkey : forall x : option string,
            (if Js.truthy_str (Js.or_str x (Some ""%string))
             then Js.or_str x (Some ""%string) else None) =
            (if Js.truthy_str x then x else None)).
  { intros [k|]; unfold Js.or_str, Js.truthy_str; [|done].
    by destruct (negb (String.eqb k "")) eqn:E; [rewrite E|]. }
  assert (Hreq : forall current,
            saveVisit_request current =
              Some (Request (strip_final_slash
                               (default "http://localhost:4000"%string
                                  (Js.or_str (serverUrl current) None)) +:+ "/ingest")
                            (if Js.truthy_str (apiKey current) then apiKey current else None))).
  { intros [en u key]. unfold saveVisit_request, getSettings, sync_request.
    cbn [syncEnabled serverUrl apiKey].
    destruct (Hurl u) as [-> ->]. by rewrite Hkey. }
  split.
  - eexists. split; [apply Hreq | reflexivity].
  - intros u c enabled key Hc. rewrite !Hreq. cbn [serverUrl apiKey].
    assert (H1 : Js.or_str (Some (u +:+ String c "" +:+ "/")) None =
                 Some (u +:+ String c "" +:+ "/")) by (by destruct u).
    assert (H2 : Js.or_str (Some (u +:+ String c "")) None =
                 Some (u +:+ String c "")) by (by destruct u).
    rewrite H1, H2. cbn [default from_option]. unfold Datatypes.id.
    rewrite <- (append_assoc_str u (String c "") "/").
    by rewrite strip_final_slash_app_slash, strip_final_slash_app.
Qed.

End SyncFacts.

(* ===================================================================== *)
(** ** The CSV export *)
(* ===================================================================== *)

Section ExportFacts.
Import CsvExport.

Lemma line_breaks_app a b : line_breaks (a +:+ b) = (line_breaks a + line_breaks b)%nat.
Proof.
  induction a as [|c a IH]; [done|].
  change (String c a +:+ b) with (String c (a +:+ b)).
  cbn [line_breaks]. rewrite IH. lia.
Qed.

Lemma line_breaks_escape c : line_breaks (escape c) = O.
Proof. destruct c as [[] [] [] [] [] [] [] []]; reflexivity. Qed.

Lemma line_breaks_quote s : line_breaks (quote s) = O.
Proof.
  unfold quote. cbn [line_breaks]. rewrite line_breaks_app.
  change (line_breaks (String double_quote "")) with O.
  change (Ascii.eqb double_quote line_feed) with false.
  induction s as [|c s IH]; [done|].
  cbn [escape_all]. rewrite line_breaks_app, line_breaks_escape. exact IH.
Qed.

Lemma unescape_escape c rest :
  unescape_all (escape c +:+ rest) = String c <$> unescape_all rest.
Proof. destruct c as [[] [] [] [] [] [] [] []]; reflexivity. Qed.

Lemma unescape_escape_all s :
  unescape_all (escape_all s +:+ String double_quote "") = Some s.
Proof.
  induction s as [|c s IH]; [done|].
  cbn [escape_all]. rewrite append_assoc_str, unescape_escape, IH. done.
Qed.

Lemma line_breaks_concat sep l :
  Forall (fun x => line_breaks x = O) l ->
  line_breaks (String.concat sep l) = (line_breaks sep * (length l - 1))%nat.
Proof.
  induction 1 as [|x l Hx Hl IH]; [cbn; lia|].
  destruct l as [|y l].
  - cbn. rewrite Hx. lia.
  - change (String.concat sep (x :: y :: l))
      with (x +:+ sep +:+ String.concat sep (y :: l)).
    rewrite !line_breaks_app, IH, Hx. cbn [length]. lia.
Qed.

Lemma line_breaks_row Number_toString v :
  (forall x, line_breaks (Number_toString x) = O) ->
  line_breaks (row Number_toString v) = O.
Proof.
  intros Hnum. unfold row. rewrite line_breaks_concat; [done|].
  apply Forall_forall. intros x Hx. apply list_elem_of_fmap in Hx as (h & -> & _).
  unfold JSON_stringify.
  destruct (or_empty (field v h)) as [| |s|y]; try done.
  - apply line_breaks_quote.
  - by destruct (PrimFloat.is_finite y).
Qed.

(** X8: the exported CSV has exactly one line break per stored visit (one
    for an empty log): the header line, then one line per visit, whatever
    the texts of the visits hold, line breaks included. *)
Theorem csv_has_one_line_per_visit Number_toString vs :
  (forall x, line_breaks (Number_toString x) = O) ->
  line_breaks (csv Number_toString vs) = Nat.max 1 (length vs).
Proof.
  intros Hnum. unfold csv. rewrite !line_breaks_app.
  change (line_breaks (String.concat "," header)) with O.
  rewrite line_breaks_concat.
  - rewrite length_map. cbn. lia.
  - apply Forall_forall. intros x Hx. apply list_elem_of_fmap in Hx as (v & -> & _).
    by apply line_breaks_row.
Qed.

(** One awkward visit: two lines, the title quoted with its comma, its
    quote and its line break escaped, the zero byte count exported as the
    empty text. *)
Lemma csv_has_one_line_per_visit_witness :
  (forall x, line_breaks (ExportSamples.print_small x) = O)
  /\ line_breaks (csv ExportSamples.print_small [ExportSamples.awkward]) = 1%nat.
Proof.
  assert (H : forall x, line_breaks (ExportSamples.print_small x) = O).
  { intros x. unfold ExportSamples.print_small. by destruct (PrimFloat.eqb x 2). }
  split; [exact H|].
  exact (csv_has_one_line_per_visit ExportSamples.print_small [ExportSamples.awkward] H).
Defined.

(** X9: a quoted text can be read back, so no two texts are exported as
    the same cell. *)
Theorem quote_can_be_read_back :
  (forall s, unquote (quote s) = Some s)
  /\ (forall s1 s2, quote s1 = quote s2 -> s1 = s2).
Proof.
  assert (H : forall s, unquote (quote s) = Some s).
  { intros s. unfold unquote, quote.
    change (Ascii.eqb double_quote double_quote) with true. cbn iota.
    apply unescape_escape_all. }
  split; [exact H|].
  intros s1 s2 Heq. pose proof (H s1) as H1. rewrite Heq, H in H1. congruence.
Qed.

End ExportFacts.

(* ===================================================================== *)
(** ** More on the log and the aggregates *)
(* ===================================================================== *)

Section MoreOnAggregates.
Import ServiceWorker Tally Dashboard DashboardViews.
Implicit Types (st : storage) (r v : visit) (rs vs : list visit) (k : string).

(** What a run of [saveVisit] calls leaves in the log and the aggregates
    depends on the log, the aggregates and the factor it starts from. *)
Lemma saveVisits_depends_on st1 st2 rs :
  local_visits st1 = local_visits st2 ->
  local_aggregates st1 = local_aggregates st2 ->
  factor_of st1 = factor_of st2 ->
  local_visits (saveVisits st1 rs) = local_visits (saveVisits st2 rs)
  /\ local_aggregates (saveVisits st1 rs) = local_aggregates (saveVisits st2 rs).
Proof.
  revert st1 st2. induction rs as [|r rs IH]; intros st1 st2 Hv Ha Hf; [done|].
  rewrite !saveVisits_cons. apply IH.
  - destruct (dated r) eqn:Hd.
    + by rewrite !saveVisit_visits, Hv, Hf.
    + unfold dated in Hd. destruct (ts r) eqn:Hts; [done|].
      by rewrite !(proj1 (saveVisit_undated _ r Hts)).
  - by rewrite !saveVisit_aggregates, Ha, Hf.
  - by rewrite !saveVisit_factor.
Qed.

Lemma dated_estimated f r : dated (estimated f r) = dated r.
Proof. done. Qed.

Lemma saveVisit_keeps_dated st r :
  Forall (fun v => dated v = true) (local_visits st) ->
  Forall (fun v => dated v = true) (local_visits (saveVisit st r)).
Proof.
  intros H. destruct (dated r) eqn:Hd.
  - rewrite saveVisit_visits by done.
    eapply Forall_impl; [|by intros v Hv; exact Hv].
    apply (Forall_forall _ _). intros v Hv.
    apply last_10000_subseteq in Hv. rewrite Forall_forall in H.
    destruct (already_stored (local_visits st) r); [by apply H|].
    apply elem_of_app in Hv as [Hv|Hv]; [by apply H|].
    apply list_elem_of_singleton in Hv as ->. by rewrite dated_estimated.
  - unfold dated in Hd. destruct (ts r) eqn:Hts; [done|].
    by rewrite (proj1 (saveVisit_undated st r Hts)).
Qed.

(** X10: a record whose [ts] does not parse is never stored.  A
    [saveVisit] of it leaves the log, the aggregates and the alert times
    as they were and changes the outcome of no later call; what it does
    write is the settings, with the factor [getSettings] merged, as every
    call does.  So after any run of calls the log holds only records with
    a parseable [ts], and the run without its unparseable records leaves
    the same log and the same aggregates.  The record is posted to the
    sync server all the same: the request does not look at the record. *)
Theorem undated_record_is_never_stored :
  (forall st r,
     ts r = None ->
     local_visits (saveVisit st r) = local_visits st
     /\ local_aggregates (saveVisit st r) = local_aggregates st
     /\ local_lastAlertTimes (saveVisit st r) = local_lastAlertTimes st
     /\ local_settings (saveVisit st r) = Settings (Some (factor_of st))
     /\ (forall rs,
           local_visits (saveVisits (saveVisit st r) rs) = local_visits (saveVisits st rs)
           /\ local_aggregates (saveVisits (saveVisit st r) rs) =
                local_aggregates (saveVisits st rs)))
  /\ (forall rs v, v ∈ local_visits (saveVisits empty_storage rs) -> dated v = true)
  /\ (forall st rs,
        local_visits (saveVisits st rs) = local_visits (saveVisits st (List.filter dated rs))
        /\ local_aggregates (saveVisits st rs) =
             local_aggregates (saveVisits st (List.filter dated rs)))
  /\ (forall current, is_Some (Sync.saveVisit_request current)).
Proof.
  assert (Hone : forall st r rs, ts r = None ->
    local_visits (saveVisits (saveVisit st r) rs) = local_visits (saveVisits st rs)
    /\ local_aggregates (saveVisits (saveVisit st r) rs) =
         local_aggregates (saveVisits st rs)).
  { intros st r rs Hts. destruct (saveVisit_undated st r Hts) as [Hv Ha].
    apply saveVisits_depends_on; [done|done|apply saveVisit_factor]. }
  split; [|split; [|split]].
  - intros st r Hts. destruct (saveVisit_undated st r Hts) as [Hv Ha].
    split; [done|]. split; [done|]. split; [apply saveVisit_lastAlertTimes|].
    split; [|intros rs; by apply Hone].
    unfold saveVisit, getSettings, factor_of. cbn. by rewrite Hts.
  - intros rs. apply Forall_forall.
    induction rs as [|r rs IH] using rev_ind; [by constructor|].
    rewrite saveVisits_snoc. by apply saveVisit_keeps_dated.
  - intros st rs. revert st. induction rs as [|r rs IH]; intros st; [done|].
    cbn [List.filter]. destruct (dated r) eqn:Hd.
    + rewrite !saveVisits_cons. apply IH.
    + rewrite saveVisits_cons. unfold dated in Hd. destruct (ts r) eqn:Hts; [done|].
      destruct (Hone st r rs Hts) as [-> ->]. apply IH.
  - intros [en u key]. unfold Sync.saveVisit_request, Sync.getSettings, Sync.sync_request.
    cbn [Sync.syncEnabled Sync.serverUrl Sync.apiKey].
    destruct u as [u|]; unfold Js.or_str, Js.truthy_str.
    + destruct (negb (String.eqb u "")) eqn:E; [rewrite E|]; by eexists.
    + by eexists.
Qed.

(** A record stamped with an Invalid Date, sent after [visit_a], and a
    run of three calls with such a record in the middle. *)
Lemma undated_record_is_never_stored_witness :
  let r := Visit (Some "v-x"%string) None None (Some "a.test"%string) (Some 5) None in
  let st := saveVisit empty_storage Samples.visit_a in
  ts r = None
  /\ local_visits (saveVisit st r) = local_visits st
  /\ local_visits (saveVisits empty_storage [Samples.visit_a; r; Samples.visit_without_origin]) =
       local_visits (saveVisits empty_storage [Samples.visit_a; Samples.visit_without_origin]).
Proof.
  intros r st. split; [reflexivity|].
  destruct undated_record_is_never_stored as (Hone & _ & Hrun & _).
  split; [exact (proj1 (Hone st r eq_refl))|].
  exact (proj1 (Hrun empty_storage [Samples.visit_a; r; Samples.visit_without_origin])).
Defined.

(** X11: a [saveVisit] never removes a bucket and never lowers a visit
    counter, and never lowers a byte total when the record's byte count is
    not negative; buckets other than the record's own origin and day keep
    their counters. *)
Theorem aggregates_only_grow st r :
  (forall k,
     let before := Js.get (byOrigin (local_aggregates st)) k in
     let after := Js.get (byOrigin (local_aggregates (saveVisit st r))) k in
     (is_Some before -> is_Some after)
     /\ visitCount before <= visitCount after <= visitCount before + 1
     /\ (0 <= default 0 (transferBytes r) -> Tally.totalBytes before <= Tally.totalBytes after)
     /\ (of_origin k r = false -> after = before))
  /\ (forall d,
        let before := byDay (local_aggregates st) !! d in
        let after := byDay (local_aggregates (saveVisit st r)) !! d in
        (is_Some before -> is_Some after)
        /\ visitCount before <= visitCount after <= visitCount before + 1
        /\ (0 <= default 0 (transferBytes r) -> Tally.totalBytes before <= Tally.totalBytes after)
        /\ (of_day d r = false -> after = before)).
Proof.
  split.
  - intros k before after. subst before after. rewrite saveVisit_get_origin.
    unfold of_origin.
    destruct (dated r && String.eqb (Js.key (origin r)) k) eqn:E.
    + apply andb_true_iff in E as [_ E]. rewrite E.
      split; [by eexists|].
      destruct (Js.get (byOrigin (local_aggregates st)) k) as [b|]; cbn;
        (split; [lia|]); (split; [lia|]); done.
    + split; [done|]. split; [lia|]. split; [lia|]. done.
  - intros d before after. subst before after. rewrite saveVisit_get_day.
    unfold of_day. destruct (ts r) as [t|] eqn:Ht.
    + destruct (day_of t =? d) eqn:E.
      * split; [by eexists|].
        destruct (byDay (local_aggregates st) !! d) as [b|]; cbn;
          (split; [lia|]); (split; [lia|]); done.
      * split; [done|]. split; [lia|]. split; [lia|]. done.
    + split; [done|]. split; [lia|]. split; [lia|]. done.
Qed.

(** *** The two indexes count the same visits *)

Lemma all_visits_by_origin_set o k b :
  all_visits_by_origin (Js.set o k b) =
    all_visits_by_origin o - visitCount (Js.get o k) + visits b.
Proof.
  unfold all_visits_by_origin.
  induction o as [|[k' b'] o IH]; cbn [Js.set Js.get foldr snd visitCount from_option]; [lia|].
  destruct (String.eqb k' k); cbn; [lia|].
  cbn in IH. rewrite IH. unfold visitCount. lia.
Qed.

Lemma all_visits_by_day_insert (m : gmap Z bucket) d b :
  all_visits_by_day (<[d := b]> m) =
    all_visits_by_day m - visitCount (m !! d) + visits b.
Proof.
  unfold all_visits_by_day.
  destruct (m !! d) as [b0|] eqn:E.
  - rewrite <- insert_delete_eq.
    rewrite map_fold_insert_L by (intros; first [lia | apply lookup_delete_eq]).
    rewrite (map_fold_delete_L _ _ d b0 m) by (intros; first [lia | done]).
    cbn. lia.
  - rewrite map_fold_insert_L by (intros; first [lia | done]). cbn. lia.
Qed.

Lemma saveVisit_all_visits st r :
  let ag := local_aggregates st in
  let ag' := local_aggregates (saveVisit st r) in
  all_visits_by_origin (byOrigin ag') =
    all_visits_by_origin (byOrigin ag) + (if dated r then 1 else 0)
  /\ all_visits_by_day (byDay ag') =
       all_visits_by_day (byDay ag) + (if dated r then 1 else 0).
Proof.
  intros ag ag'. subst ag ag'. rewrite saveVisit_aggregates. unfold dated.
  destruct (ts r) as [t|]; cbn [byOrigin byDay]; [|lia].
  rewrite all_visits_by_origin_set, all_visits_by_day_insert. unfold bump.
  destruct (Js.get _ _), (_ !! _); cbn; lia.
Qed.

(** X12: after any run of [saveVisit] calls on the empty store the visit
    counters of the origin index and those of the day index add up to the
    same number, the number of calls with a parseable [ts]; while the
    records are distinct and at most 10000 this is also the length of the
    log, the number the dashboard shows as visits. *)
Theorem both_indexes_count_every_stored_call rs :
  let st := saveVisits empty_storage rs in
  all_visits_by_origin (byOrigin (local_aggregates st)) =
    count (List.filter dated rs)
  /\ all_visits_by_day (byDay (local_aggregates st)) =
       count (List.filter dated rs)
  /\ (NoDup (ids rs) -> Forall (fun r => dated r = true) rs -> count rs <= 10000 ->
      visits_count (local_visits st) =
        all_visits_by_origin (byOrigin (local_aggregates st))).
Proof.
  intros st.
  assert (H : forall st0,
            let st1 := saveVisits st0 rs in
            all_visits_by_origin (byOrigin (local_aggregates st1)) =
              all_visits_by_origin (byOrigin (local_aggregates st0)) + count (List.filter dated rs)
            /\ all_visits_by_day (byDay (local_aggregates st1)) =
                 all_visits_by_day (byDay (local_aggregates st0)) + count (List.filter dated rs)).
  { induction rs as [|r rs' IH]; intros st0 st1; subst st1.
    - cbn. unfold count. cbn. lia.
    - rewrite saveVisits_cons. destruct (IH (saveVisit st0 r)) as [-> ->].
      destruct (saveVisit_all_visits st0 r) as [-> ->].
      cbn [List.filter]. destruct (dated r); unfold count; cbn [length]; lia. }
  destruct (H empty_storage) as [Ho Hd]. fold st in Ho, Hd.
  split; [rewrite Ho; cbn; unfold all_visits_by_origin; cbn; lia|].
  split.
  { rewrite Hd. change (byDay (local_aggregates empty_storage)) with (∅ : gmap Z bucket).
    unfold all_visits_by_day. rewrite map_fold_empty. lia. }
  intros Hnd Hdated Hlen. rewrite Ho. subst st.
  rewrite saveVisits_log_from_empty by done.
  rewrite last_10000_short by (by rewrite length_map).
  unfold visits_count. rewrite length_map.
  assert (Hall : List.filter dated rs = rs).
  { clear -Hdated. induction Hdated as [|r rs' Hr _ IH]; [done|].
    cbn. by rewrite Hr, IH. }
  rewrite Hall. cbn. unfold count, all_visits_by_origin. cbn. lia.
Qed.

(** Three distinct visits: both sums and the log length are 3. *)
Lemma both_indexes_count_every_stored_call_witness :
  let rs := Samples.run 3 in
  let st := saveVisits empty_storage rs in
  (NoDup (ids rs) /\ Forall (fun r => dated r = true) rs /\ count rs <= 10000)
  /\ visits_count (local_visits st) = all_visits_by_origin (byOrigin (local_aggregates st)).
Proof.
  intros rs st.
  assert (H : NoDup (ids rs) /\ Forall (fun r => dated r = true) rs /\ count rs <= 10000).
  { split; [apply run_ids_NoDup|]. split; [apply run_dated|]. vm_compute. discriminate. }
  split; [exact H|]. destruct H as (H1 & H2 & H3).
  exact (proj2 (proj2 (both_indexes_count_every_stored_call rs)) H1 H2 H3).
Defined.

End MoreOnAggregates.

(* ===================================================================== *)
(** ** More on the dashboard *)
(* ===================================================================== *)

Section MoreOnDashboard.
Import ServiceWorker Tally Dashboard DashboardViews.
Implicit Types (st : storage) (r v : visit) (rs vs : list visit) (k : string).

(** X13: the recent-visits table holds the last fifty records of the log,
    newest first; a record [saveVisit] has just appended is its first row. *)
Theorem recentVisits_are_the_newest_first :
  (forall vs, recentVisits vs = reverse (drop (length vs - 50) vs))
  /\ (forall vs, (length (recentVisits vs) <= 50)%nat)
  /\ (forall st r,
        dated r = true -> id r ∉ ids (local_visits st) ->
        head (recentVisits (local_visits (saveVisit st r))) =
          Some (estimated (factor_of st) r)).
Proof.
  split; [|split].
  - intros vs. apply take_reverse.
  - intros vs. unfold recentVisits. rewrite length_take. lia.
  - intros st r Hd Hid. rewrite saveVisit_new, last_10000_snoc by done.
    unfold recentVisits. by rewrite reverse_snoc.
Qed.

(** *** The indexes the dashboard rebuilds *)

Lemma rebuild_byOrigin_get (o : Js.obj bucket) vs k :
  Js.get (fold_left
            (fun o v =>
               let k := default "unknown"%string (Js.or_str (origin v) None) in
               Js.set o k (add_visit (Js.get o k) v)) vs o) k =
    add_visits (Js.get o k) (List.filter (filed_under k) vs).
Proof.
  revert o. induction vs as [|v vs IH]; intros o; [done|].
  cbn [fold_left List.filter]. rewrite IH. unfold filed_under, origin_or_unknown.
  destruct (String.eqb (default "unknown"%string (Js.or_str (origin v) None)) k) eqn:E.
  - apply String.eqb_eq in E. rewrite E, get_set_same. done.
  - apply String.eqb_neq in E. by rewrite get_set_other.
Qed.

Lemma add_visits_counts b vs :
  visitCount (add_visits b vs) = visitCount b + count vs
  /\ Tally.totalBytes (add_visits b vs) = Tally.totalBytes b + sum_bytes vs.
Proof.
  revert b. induction vs as [|v vs IH]; intros b.
  - unfold count, visitCount, Tally.totalBytes. cbn. split; lia.
  - cbn [add_visits fold_left]. fold (add_visits (Some (add_visit b v)) vs).
    destruct (IH (Some (add_visit b v))) as [-> ->].
    unfold count, visit_bytes. cbn [length sum_bytes foldr]. fold (sum_bytes vs).
    unfold visitCount, Tally.totalBytes. destruct b; cbn; unfold visit_bytes; split; lia.
Qed.

Lemma rebuild_byOrigin_all_visits vs :
  forall o,
    all_visits_by_origin
      (fold_left
         (fun o v =>
            let k := default "unknown"%string (Js.or_str (origin v) None) in
            Js.set o k (add_visit (Js.get o k) v)) vs o) =
    all_visits_by_origin o + count vs.
Proof.
  induction vs as [|v vs IH]; intros o.
  - cbn [fold_left]. unfold count. cbn [length]. lia.
  - cbn [fold_left]. rewrite IH, all_visits_by_origin_set.
    unfold count, add_visit, visitCount.
    destruct (Js.get o _) as [b|]; cbn [default from_option length visits];
      unfold Datatypes.id; lia.
Qed.

(** X14: the origin index the dashboard rebuilds when the stored one is
    empty counts the log exactly: each bucket holds the number and the byte
    total of the log's records filed under its key
    ([origin], or ['unknown'] when that is missing or empty), and the
    counters add up to the length of the log. *)
Theorem rebuilt_index_counts_the_log vs :
  (forall k,
     let b := Js.get (rebuild_byOrigin vs) k in
     visitCount b = count (List.filter (filed_under k) vs)
     /\ Tally.totalBytes b = sum_bytes (List.filter (filed_under k) vs))
  /\ all_visits_by_origin (rebuild_byOrigin vs) = visits_count vs
  /\ byOrigin_used vs (Aggregates [] ∅) = rebuild_byOrigin vs.
Proof.
  split; [|split].
  - intros k b. subst b. unfold rebuild_byOrigin. rewrite rebuild_byOrigin_get.
    destruct (add_visits_counts (Js.get [] k) (List.filter (filed_under k) vs)) as [-> ->].
    unfold visitCount, Tally.totalBytes. cbn [Js.get from_option]. split; lia.
  - unfold rebuild_byOrigin. rewrite rebuild_byOrigin_all_visits.
    unfold all_visits_by_origin, visits_count, count. cbn [foldr]. lia.
  - done.
Qed.

(** *** Stored and rebuilt index side by side *)

Lemma set_keys {V} (o : Js.obj V) k (b : V) :
  map fst (Js.set o k b) = add_key (map fst o) k.
Proof.
  unfold add_key. induction o as [|[k' b'] o IH]; [done|].
  cbn [Js.set map fst existsb].
  rewrite (String.eqb_sym k k').
  destruct (String.eqb k' k); [done|]. cbn [map fst orb]. rewrite IH.
  by destruct (existsb (String.eqb k) (map fst o)).
Qed.

Lemma key_of_has_origin r :
  has_origin r = true -> origin_or_unknown r = Js.key (origin r).
Proof.
  unfold has_origin, origin_or_unknown, Js.key, Js.or_str.
  destruct (origin r) as [o|]; [|done]. cbn. by intros ->.
Qed.

Lemma stored_keys st rs :
  Forall (fun r => dated r = true) rs ->
  map fst (byOrigin (local_aggregates (saveVisits st rs))) =
    fold_left add_key (map (fun r => Js.key (origin r)) rs)
              (map fst (byOrigin (local_aggregates st))).
Proof.
  intros Hd. revert st. induction Hd as [|r rs Hr _ IH]; intros st; [done|].
  rewrite saveVisits_cons, IH, saveVisit_aggregates.
  unfold dated in Hr. destruct (ts r); [|done].
  cbn [byOrigin map fold_left]. by rewrite set_keys.
Qed.

Lemma rebuilt_keys vs (o : Js.obj bucket) :
  map fst (fold_left
             (fun o v =>
                let k := default "unknown"%string (Js.or_str (origin v) None) in
                Js.set o k (add_visit (Js.get o k) v)) vs o) =
    fold_left add_key (map origin_or_unknown vs) (map fst o).
Proof.
  revert o. induction vs as [|v vs IH]; intros o; [done|].
  cbn [fold_left map]. rewrite IH, set_keys. done.
Qed.

(** X15: while nothing was evicted the rebuilt origin index agrees with the
    stored one.  After at most 10000 distinct, dated records with a
    non-empty origin were saved into the empty store, rebuilding from the
    log gives the same keys in the same order, and for each key the same
    visit counter and byte total, as the aggregates [saveVisit] kept. *)
Theorem rebuilt_index_agrees_with_the_stored_one rs :
  NoDup (ids rs) ->
  Forall (fun r => dated r = true) rs ->
  Forall (fun r => has_origin r = true) rs ->
  count rs <= 10000 ->
  let st := saveVisits empty_storage rs in
  let rebuilt := rebuild_byOrigin (local_visits st) in
  map fst rebuilt = map fst (byOrigin (local_aggregates st))
  /\ (forall k,
        visitCount (Js.get rebuilt k) =
          visitCount (Js.get (byOrigin (local_aggregates st)) k)
        /\ Tally.totalBytes (Js.get rebuilt k) =
             Tally.totalBytes (Js.get (byOrigin (local_aggregates st)) k)).
Proof.
  intros Hnd Hd Ho Hlen st rebuilt.
  set (f := DEFAULTS_co2Factor_g_per_byte).
  assert (Hlog : local_visits st = map (estimated f) rs).
  { subst st. rewrite saveVisits_log_from_empty by done.
    apply last_10000_short. by rewrite length_map. }
  assert (Hsame : forall k, List.filter (filed_under k) rs = List.filter (of_origin k) rs).
  { intros k. clear -Ho. induction Ho as [|r rs Hr _ IH]; [done|].
    cbn [List.filter]. rewrite IH. unfold filed_under, of_origin.
    by rewrite (key_of_has_origin r Hr). }
  split.
  - subst rebuilt. unfold rebuild_byOrigin. rewrite rebuilt_keys, Hlog.
    subst st. rewrite stored_keys by done. cbn [map].
    rewrite map_map. f_equal.
    clear -Ho. induction Ho as [|r rs Hr _ IH]; [done|].
    cbn [map]. rewrite IH. f_equal.
    change (origin_or_unknown (estimated f r)) with (origin_or_unknown r).
    by apply key_of_has_origin.
  - intros k. subst rebuilt. unfold rebuild_byOrigin.
    rewrite rebuild_byOrigin_get, Hlog.
    rewrite (filter_estimated (filed_under k)) by done.
    destruct (add_visits_counts (Js.get [] k) (map (estimated f) (List.filter (filed_under k) rs)))
      as [-> ->].
    subst st. rewrite saveVisits_from_empty_origin by done.
    rewrite add_all_visitCount, add_all_totalBytes, Hsame.
    rewrite count_map. unfold count.
    assert (Hb : forall l, sum_bytes (map (estimated f) l) = sum_bytes l).
    { unfold sum_bytes. induction l as [|a l IHl]; [done|].
      cbn [map foldr]. by rewrite IHl. }
    rewrite Hb. unfold visitCount, Tally.totalBytes. cbn [Js.get from_option]. split; lia.
Qed.

(** Three visits of [a.test]: one key, counter 3 on both sides. *)
Lemma rebuilt_index_agrees_with_the_stored_one_witness :
  let rs := Samples.run 3 in
  let st := saveVisits empty_storage rs in
  (NoDup (ids rs) /\ Forall (fun r => dated r = true) rs
   /\ Forall (fun r => has_origin r = true) rs /\ count rs <= 10000)
  /\ map fst (rebuild_byOrigin (local_visits st)) = ["a.test"%string]
  /\ visitCount (Js.get (rebuild_byOrigin (local_visits st)) "a.test") = 3.
Proof.
  intros rs st.
  assert (H : NoDup (ids rs) /\ Forall (fun r => dated r = true) rs
              /\ Forall (fun r => has_origin r = true) rs /\ count rs <= 10000).
  { split; [apply run_ids_NoDup|]. split; [apply run_dated|].
    split; [|vm_compute; discriminate].
    repeat constructor. }
  split; [exact H|]. destruct H as (H1 & H2 & H3 & H4).
  destruct (rebuilt_index_agrees_with_the_stored_one rs H1 H2 H3 H4) as [Hkeys Hcounts].
  fold st in Hkeys, Hcounts.
  rewrite Hkeys, (proj1 (Hcounts "a.test"%string)).
  split; vm_compute; reflexivity.
Defined.

(** *** Clearing *)

(** X16: [clearData], once confirmed, empties the log and both indexes and
    leaves the settings and the alert times alone; the dashboard then
    shows seven zero columns, no top site and no recent visit; saving
    visits afterwards gives the log and the aggregates of a store that
    never held a visit.  A declined confirmation changes nothing. *)
Theorem clearData_starts_over st :
  let cleared := clearData true st in
  local_visits cleared = []
  /\ local_aggregates cleared = Aggregates [] ∅
  /\ local_settings cleared = local_settings st
  /\ local_lastAlertTimes cleared = local_lastAlertTimes st
  /\ (forall tz today,
        co2PerDay tz today (local_visits cleared) (local_aggregates cleared) =
          [0; 0; 0; 0; 0; 0; 0]%float)
  /\ top (local_visits cleared) (local_aggregates cleared) = []
  /\ recentVisits (local_visits cleared) = []
  /\ (forall rs,
        let fresh := Storage [] (Aggregates [] ∅) (local_settings st) ∅ in
        local_visits (saveVisits cleared rs) = local_visits (saveVisits fresh rs)
        /\ local_aggregates (saveVisits cleared rs) = local_aggregates (saveVisits fresh rs))
  /\ clearData false st = st.
Proof.
  intros cleared. subst cleared. unfold clearData.
  cbn [local_visits local_aggregates local_settings local_lastAlertTimes].
  split; [done|]. split; [done|]. split; [done|]. split; [done|].
  split.
  { intros tz today. unfold co2PerDay, byDay_used, rebuild_byDay, day_co2.
    cbn [byDay fold_left]. rewrite map_size_empty. cbn [Nat.eqb].
    unfold daysArr, daysArr_of. cbn [countdown map]. by rewrite !lookup_empty. }
  split; [done|]. split; [done|]. split; [|done].
  intros rs. by apply saveVisits_depends_on.
Qed.

End MoreOnDashboard.

(* ===================================================================== *)
(** ** The page: active seconds, the alerts it raises, the collector *)
(* ===================================================================== *)

Section PageFacts.
Import ServiceWorker Tally ContentScript Page.
Implicit Types (s : state) (e : event) (es : list event) (st : storage).

Lemma run_snoc S origin0 s es e :
  run S origin0 s (es ++ [e]) = step S origin0 (run S origin0 s es) e.
Proof. unfold run. by rewrite fold_left_app. Qed.

Lemma active_seconds_snoc es e :
  active_seconds (es ++ [e]) =
    active_seconds es + (if is_active_second e then 1 else 0).
Proof.
  unfold active_seconds. rewrite List.filter_app, length_app. cbn [List.filter].
  destruct (is_active_second e); cbn [length]; lia.
Qed.

Lemma startActiveTimer_keeps s :
  activeSeconds (startActiveTimer s) = activeSeconds s
  /\ store (startActiveTimer s) = store s
  /\ raised (startActiveTimer s) = raised s.
Proof. unfold startActiveTimer. by destruct (activeTimer s). Qed.

Lemma stopActiveTimer_keeps s :
  activeSeconds (stopActiveTimer s) = activeSeconds s
  /\ store (stopActiveTimer s) = store s
  /\ raised (stopActiveTimer s) = raised s.
Proof. unfold stopActiveTimer. by destruct (activeTimer s). Qed.

Lemma startCheckTimer_keeps s :
  activeSeconds (startCheckTimer s) = activeSeconds s
  /\ store (startCheckTimer s) = store s
  /\ raised (startCheckTimer s) = raised s.
Proof. unfold startCheckTimer. by destruct (checkTimer s). Qed.

Lemma stopCheckTimer_keeps s :
  activeSeconds (stopCheckTimer s) = activeSeconds s
  /\ store (stopCheckTimer s) = store s
  /\ raised (stopCheckTimer s) = raised s.
Proof. unfold stopCheckTimer. by destruct (checkTimer s). Qed.

Lemma init_state visible hasFocus st :
  activeSeconds (init visible hasFocus st) = 0
  /\ store (init visible hasFocus st) = st
  /\ raised (init visible hasFocus st) = [].
Proof. unfold init. by destruct (visible && hasFocus). Qed.

(** One run of [evaluateAlert]: either nothing changes, or the conditions
    of [evaluateAlert_cases] hold, one alert is appended and the alert time
    of the origin is set. *)
Lemma evaluate_cases S origin0 now s :
  let sum := getCumulativeCO2ForOrigin S origin0 now (local_visits (store s)) in
  let lastTs := lastTs_of (local_lastAlertTimes (store s)) origin0 in
  (evaluate S origin0 now s =
     State (activeSeconds s) (activeTimer s) (checkTimer s) (store s) (raised s))
  \/ (Js.orZ (alert_time_threshold_s S) 30 <= activeSeconds s
      /\ (lastTs = 0 \/ cooldownMs S <= now - lastTs)
      /\ evaluate S origin0 now s =
           State (activeSeconds s) (activeTimer s) (checkTimer s)
                 (Storage (local_visits (store s)) (local_aggregates (store s))
                          (local_settings (store s))
                          (<[origin0 := now]> (local_lastAlertTimes (store s))))
                 (raised s ++ [(now, Alert origin0 sum (alert_window_minutes S))])).
Proof.
  intros sum lastTs. unfold evaluate. rewrite evaluateAlert_cases.
  fold sum. fold lastTs.
  destruct (alert_enabled S && _ && _ && _) eqn:E.
  - right. apply andb_true_iff in E as [E Hcool]. apply andb_true_iff in E as [E _].
    apply andb_true_iff in E as [_ Hthr]. apply Z.leb_le in Hthr.
    split; [done|]. split; [|done].
    apply orb_true_iff in Hcool as [H|H]; [left; by apply Z.eqb_eq|right; by apply Z.leb_le].
  - left. by rewrite app_nil_r.
Qed.

Lemma spaced_snoc gap l t a :
  spaced gap l ->
  (forall t0 a0, last l = Some (t0, a0) -> t0 <> 0 -> gap <= t - t0) ->
  spaced gap (l ++ [(t, a)]).
Proof.
  induction l as [|[t1 a1] l IH]; intros Hs Hlast; [done|].
  destruct l as [|[t2 a2] l].
  - cbn. split; [|done]. intros Hne. by apply (Hlast t1 a1).
  - change ((t1, a1) :: (t2, a2) :: l ++ [(t, a)])
      with ((t1, a1) :: ((t2, a2) :: l) ++ [(t, a)]).
    destruct Hs as [H12 Hs]. split; [done|]. apply IH; [done|].
    intros t0 a0 H0. by apply (Hlast t0 a0).
Qed.

(** What every run preserves: the counter lies between zero and the
    number of active seconds seen, an alert was only raised once the time
    threshold was reached, alerts are spaced by the cooldown, and the
    store holds the time of the last one. *)
Lemma run_invariant S origin0 visible hasFocus st es :
  let s := run S origin0 (init visible hasFocus st) es in
  0 <= activeSeconds s <= active_seconds es
  /\ (raised s <> [] -> Js.orZ (alert_time_threshold_s S) 30 <= active_seconds es)
  /\ spaced (cooldownMs S) (raised s)
  /\ (forall t a, last (raised s) = Some (t, a) ->
        local_lastAlertTimes (store s) !! origin0 = Some t).
Proof.
  induction es as [|e es IH] using rev_ind.
  - cbn [run fold_left]. destruct (init_state visible hasFocus st) as (-> & _ & ->).
    by cbn.
  - intros s. subst s. rewrite run_snoc, active_seconds_snoc.
    set (s := run S origin0 (init visible hasFocus st) es) in *.
    cbn zeta in IH. destruct IH as (Hb & Hthr & Hsp & Hlast).
    assert (Hev : forall now,
      is_active_second e = false ->
      let s' := evaluate S origin0 now s in
      0 <= activeSeconds s' <= active_seconds es + 0
      /\ (raised s' <> [] -> Js.orZ (alert_time_threshold_s S) 30 <= active_seconds es + 0)
      /\ spaced (cooldownMs S) (raised s')
      /\ (forall t a, last (raised s') = Some (t, a) ->
            local_lastAlertTimes (store s') !! origin0 = Some t)).
    { intros now _ s'. subst s'.
      destruct (evaluate_cases S origin0 now s) as [->|(Ht & Hc & ->)];
        cbn [activeSeconds raised store local_lastAlertTimes].
      - repeat split; try lia; try done. intros H. specialize (Hthr H). lia.
      - repeat split; try lia.
        + apply spaced_snoc; [done|]. intros t0 a0 H0 Hne.
          specialize (Hlast t0 a0 H0). unfold lastTs_of in Hc. rewrite Hlast in Hc.
          cbn [default] in Hc. by destruct Hc.
        + intros t a. rewrite last_snoc. intros [= <- <-]. apply lookup_insert_eq. }
    destruct e as [v| | |v f|now|now| |r|]; cbn [step is_active_second].
    + destruct v.
      * destruct (startActiveTimer_keeps s) as (-> & -> & ->).
        repeat split; try lia; try done. intros H. specialize (Hthr H). lia.
      * destruct (stopActiveTimer_keeps s) as (-> & -> & ->).
        repeat split; try lia; try done. intros H. specialize (Hthr H). lia.
    + destruct (startActiveTimer_keeps s) as (-> & -> & ->).
      repeat split; try lia; try done. intros H. specialize (Hthr H). lia.
    + repeat split; try lia; try done. intros H. specialize (Hthr H). lia.
    + destruct (activeTimer s); cbn [andb]; destruct (v && f);
        cbn [activeSeconds raised store];
        repeat split; try lia; try done; intros H; specialize (Hthr H); lia.
    + destruct (checkTimer s).
      * by apply Hev.
      * repeat split; try lia; try done. intros H. specialize (Hthr H). lia.
    + by apply Hev.
    + cbn [activeSeconds raised store].
      repeat split; try lia; try done. intros H. specialize (Hthr H). lia.
    + cbn [activeSeconds raised store]. rewrite saveVisit_lastAlertTimes.
      repeat split; try lia; try done. intros H. specialize (Hthr H). lia.
    + destruct (stopCheckTimer_keeps (stopActiveTimer s)) as (-> & -> & ->).
      destruct (stopActiveTimer_keeps s) as (-> & -> & ->).
      repeat split; try lia; try done. intros H. specialize (Hthr H). lia.
Qed.

(** X17: on a page, [activeSeconds] never exceeds the number of runs of
    the one-second callback that found the page visible and focused, and
    no alert is raised, by the check timer or by [forceAlertEval], before
    that number has reached the time threshold (30 when the setting is
    [0]); visits stored meanwhile, visibility changes and focus changes do
    not matter. *)
Theorem alert_needs_active_seconds S origin0 visible hasFocus st es :
  let s := run S origin0 (init visible hasFocus st) es in
  0 <= activeSeconds s <= active_seconds es
  /\ (raised s <> [] ->
      Js.orZ (alert_time_threshold_s S) 30 <= active_seconds es).
Proof.
  intros s.
  destruct (run_invariant S origin0 visible hasFocus st es) as (H1 & H2 & _).
  by split.
Qed.

Lemma alert_needs_active_seconds_witness :
  let s := run Samples.settings_P4 "a.test" (init true true empty_storage)
               PageSamples.half_a_minute in
  length (raised s) = 1%nat
  /\ 30 <= active_seconds PageSamples.half_a_minute.
Proof.
  intros s.
  assert (H : length (raised s) = 1%nat) by (vm_compute; reflexivity).
  split; [exact H|].
  apply (alert_needs_active_seconds Samples.settings_P4 "a.test" true true
           empty_storage PageSamples.half_a_minute).
  fold s. by destruct (raised s).
Defined.

(** X18: the alerts one page raises are spaced by the cooldown: between
    an alert (raised at a time other than [0]) and the next one at least
    [cooldownMs] milliseconds lie, whatever the order of checks, stored
    visits and timer events; and after every alert the store holds its
    time under the page's origin. *)
Theorem alerts_keep_the_cooldown S origin0 visible hasFocus st es :
  let s := run S origin0 (init visible hasFocus st) es in
  spaced (cooldownMs S) (raised s)
  /\ (forall t a, last (raised s) = Some (t, a) ->
        local_lastAlertTimes (store s) !! origin0 = Some t).
Proof.
  intros s.
  destruct (run_invariant S origin0 visible hasFocus st es) as (_ & _ & H3 & H4).
  by split.
Qed.

Lemma alerts_keep_the_cooldown_witness :
  let s := run Samples.settings_P4 "a.test" (init true true empty_storage)
               PageSamples.two_checks in
  map fst (raised s) = [Samples.now0; Samples.now0 + 120000]
  /\ spaced 50000 (raised s).
Proof.
  intros s. split; [vm_compute; reflexivity|].
  exact (proj1 (alerts_keep_the_cooldown Samples.settings_P4 "a.test" true true
                  empty_storage PageSamples.two_checks)).
Defined.

Lemma orZ_orZ x d : d <> 0 -> Js.orZ (Js.orZ x d) d = Js.orZ x d.
Proof.
  intros Hd. unfold Js.orZ. destruct (x =? 0) eqn:E.
  - apply Z.eqb_neq in Hd. by rewrite Hd.
  - by rewrite E.
Qed.

Lemma or_or_10 x : Js.or (Js.or x 10) 10 = Js.or x 10.
Proof.
  unfold Js.or at 2 3. destruct (Js.truthy x) eqn:E.
  - unfold Js.or. by rewrite E.
  - reflexivity.
Qed.

Lemma effective_windowMs S : windowMs (effective S) = windowMs S.
Proof.
  unfold windowMs, effective. cbn [alert_window_minutes DEFAULT_SETTINGS].
  by rewrite orZ_orZ.
Qed.

Lemma effective_cooldownMs S : cooldownMs (effective S) = cooldownMs S.
Proof.
  unfold cooldownMs, effective. cbn [alert_cooldown_min DEFAULT_SETTINGS].
  by rewrite orZ_orZ.
Qed.

Lemma effective_sum S origin0 now vs :
  getCumulativeCO2ForOrigin (effective S) origin0 now vs =
    getCumulativeCO2ForOrigin S origin0 now vs.
Proof.
  unfold getCumulativeCO2ForOrigin. generalize 0%float.
  induction vs as [|v vs IH]; intros acc; [done|]. cbn [fold_left].
  replace (counted (effective S) origin0 now v) with (counted S origin0 now v).
  - apply IH.
  - unfold counted. by rewrite effective_windowMs.
Qed.

(** X19: a setting of [0] (or, for the CO2 threshold, [NaN]) is the
    default: [evaluateAlert] decides and stores exactly as with the time
    threshold 30 s, the CO2 threshold 10 g, the window 10 and the cooldown
    5 put in its place; only the minutes in the banner text are the
    configured ones.  So a time threshold of [0] still asks for thirty
    active seconds. *)
Theorem zero_settings_mean_the_defaults S origin0 activeSeconds now st :
  evaluateAlert S origin0 activeSeconds now st =
    (shown_with (alert_window_minutes S)
       <$> fst (evaluateAlert (effective S) origin0 activeSeconds now st),
     snd (evaluateAlert (effective S) origin0 activeSeconds now st))
  /\ effective (MkSettings (alert_enabled S) 0 0 0 0) =
       MkSettings (alert_enabled S) 10 30 10 5
  /\ (alert_time_threshold_s S = 0 -> activeSeconds < 30 ->
      evaluateAlert S origin0 activeSeconds now st = (None, st)).
Proof.
  split; [|split].
  - rewrite !evaluateAlert_cases. cbn zeta.
    rewrite effective_sum, effective_cooldownMs.
    unfold effective. cbn [alert_enabled alert_time_threshold_s
      alert_co2_threshold_g alert_window_minutes DEFAULT_SETTINGS].
    rewrite !(orZ_orZ _ 30) by done. rewrite !or_or_10.
    destruct (alert_enabled S && _ && _ && _); [|done].
    cbn [fst snd fmap option_fmap option_map shown_with alert_origin alert_sum]. done.
  - reflexivity.
  - intros H0 Hlt. rewrite evaluateAlert_cases. cbn zeta. rewrite H0.
    change (Js.orZ 0 30) with 30.
    assert (E : (30 <=? activeSeconds) = false) by (apply Z.leb_gt; lia).
    rewrite E. by rewrite andb_false_r.
Qed.

Lemma zero_settings_mean_the_defaults_witness :
  ContentScript.evaluateAlert Samples.settings_P4 "a.test" 29 Samples.now0
    (saveVisits empty_storage Samples.seconds_ago)
  = (None, saveVisits empty_storage Samples.seconds_ago).
Proof.
  apply (zero_settings_mean_the_defaults Samples.settings_P4 "a.test" 29
           Samples.now0 (saveVisits empty_storage Samples.seconds_ago));
    [reflexivity | lia].
Defined.

End PageFacts.

Section CollectorFacts.
Import ServiceWorker Tally Collector.

Lemma orZ_0 x : Js.orZ x 0 = x.
Proof. unfold Js.orZ. destruct (x =? 0) eqn:E; [|done]. apply Z.eqb_eq in E. done. Qed.

Lemma elem_of_issues (a b c d : bool) x :
  x ∈ (if a then [autoplay_video] else [])
      ++ (if b then [page_weight] else [])
      ++ (if c then [too_many_resources] else [])
      ++ (if d then [long_tasks] else [])
  <-> match x with
      | autoplay_video => a = true
      | page_weight => b = true
      | too_many_resources => c = true
      | long_tasks => d = true
      end.
Proof.
  destruct a, b, c, d, x; cbn [app];
    rewrite ?elem_of_cons, ?elem_of_nil; intuition congruence.
Qed.

(** X20: the issues of a collected record.  [detectIssues] would report
    [long_tasks] for a record with more than three long tasks, but the
    record [gatherMetricsOnce] hands it always has [longTasks = 0], so a
    collected record never carries that issue; [page_weight] is reported
    exactly above 5,000,000 transferred bytes and [too_many_resources]
    exactly above 150 resource entries. *)
Theorem collected_record_never_reports_long_tasks
    s guid now hostname entries videos :
  let r := gatherMetricsOnce s guid now hostname entries videos in
  (long_tasks ∉ issues r)
  /\ longTasks r = 0
  /\ (page_weight ∈ issues r <-> 5000000 < transferBytes_of entries)
  /\ (too_many_resources ∈ issues r <-> 150 < Z.of_nat (length entries))
  /\ (forall videos' r', long_tasks ∈ detectIssues videos' r' <-> 3 < longTasks r').
Proof.
  intros r. subst r. unfold gatherMetricsOnce.
  cbn [issues longTasks]. unfold detectIssues.
  cbn [sent transferBytes resourceCount longTasks default]. rewrite !orZ_0.
  split; [|split; [done|split; [|split]]].
  - intros H. apply elem_of_issues in H. done.
  - etrans; [apply elem_of_issues|]. apply Z.ltb_lt.
  - etrans; [apply elem_of_issues|]. apply Z.ltb_lt.
  - intros videos' r'. rewrite !orZ_0. etrans; [apply elem_of_issues|]. apply Z.ltb_lt.
Qed.

(** X21: the estimate the collector shows in the overlay and the one the
    service worker stores.  With a stored factor that is truthy (or
    absent) and a finite product, [saveVisit]'s recomputation leaves the
    collected record as it is, so overlay and log agree.  With a stored
    factor of [0] or [NaN] the collector falls back to the default factor
    [1e-6] while the service worker multiplies by the stored one. *)
Theorem overlay_and_log_agree_on_the_estimate
    st guid now hostname entries videos :
  let r := gatherMetricsOnce (local_settings st) guid now hostname entries videos in
  let f := factor_of st in
  (Js.truthy f = true -> PrimFloat.is_finite (estimate f (sent r)) = true ->
   estimated f (sent r) = sent r)
  /\ (Js.truthy f = false ->
      estimatedCO2_g (sent r) =
        Some (safeNum (estimate DEFAULTS_co2Factor_g_per_byte (sent r)) 0)).
Proof.
  intros r f. subst r. unfold gatherMetricsOnce. cbn [sent].
  unfold estimated, estimate. cbn [id ts url_hostname origin transferBytes
    estimatedCO2_g default].
  unfold Datatypes.id.
  assert (Hf : co2Factor (local_settings st) = Js.or f 1e-6).
  { reflexivity. }
  rewrite Hf. unfold Js.or. split.
  - intros Ht Hfin. rewrite Ht. unfold safeNum. by rewrite Hfin.
  - intros Ht. rewrite Ht. reflexivity.
Qed.

Lemma overlay_and_log_agree_on_the_estimate_witness :
  let entries := [Entry (Some 1500000) None; Entry (Some 0) (Some 500000)] in
  let r := gatherMetricsOnce no_settings "g-1" Samples.midnight "a.test" entries [] in
  estimated (factor_of empty_storage) (sent r) = sent r
  /\ transferBytes (sent r) = Some 2000000.
Proof.
  intros entries r. split; [|reflexivity].
  apply (overlay_and_log_agree_on_the_estimate empty_storage "g-1"
           Samples.midnight "a.test" entries []); reflexivity.
Defined.

End CollectorFacts.

(* ===================================================================== *)
(** ** The two ingest services *)
(* ===================================================================== *)

Section ServerFacts.
Import Wire Server ApiIngest.
Variable localeCompare : string -> string -> Z.
Variable select_by_day : InMemoryDB -> list result.
Implicit Types (db : InMemoryDB) (req : request) (k : option string) (v : row).

Local Abbreviation POST_ingest := (Server.POST_ingest localeCompare select_by_day).
Local Abbreviation POST_ingests := (Server.POST_ingests localeCompare select_by_day).
Local Abbreviation GET_visits := (Server.GET_visits localeCompare select_by_day).
Local Abbreviation GET_aggregates := (Server.GET_aggregates localeCompare select_by_day).
Local Abbreviation prepare := (Server.prepare localeCompare select_by_day).

Lemma strict_eq_refl k : Js.strict_eq k k = true.
Proof. by apply strict_eq_true. Qed.

Lemma strict_eq_false k k' : k <> k' -> Js.strict_eq k k' = false.
Proof.
  intros H. destruct (Js.strict_eq k k') eqn:E; [|done].
  by apply strict_eq_true in E.
Qed.

Lemma Map_get_set_same db k v : Map_get (Map_set db k v) k = Some v.
Proof.
  induction db as [|[k' v'] db IH]; cbn.
  - by rewrite strict_eq_refl.
  - destruct (Js.strict_eq k' k) eqn:E; cbn; by rewrite E.
Qed.

Lemma Map_get_set_other db k k' v :
  k <> k' -> Map_get (Map_set db k v) k' = Map_get db k'.
Proof.
  intros Hne. induction db as [|[k0 v0] db IH]; cbn.
  - by rewrite strict_eq_false.
  - destruct (Js.strict_eq k0 k) eqn:E; cbn.
    + apply strict_eq_true in E as ->. by rewrite strict_eq_false.
    + by rewrite IH.
Qed.

Lemma Map_set_set db k v v' : Map_set (Map_set db k v) k v' = Map_set db k v'.
Proof.
  induction db as [|[k0 v0] db IH]; cbn.
  - by rewrite strict_eq_refl.
  - destruct (Js.strict_eq k0 k) eqn:E; cbn; rewrite E; [done|]. by rewrite IH.
Qed.

Lemma Map_keys_set_old db k v :
  k ∈ Map_keys db -> Map_keys (Map_set db k v) = Map_keys db.
Proof.
  unfold Map_keys. induction db as [|[k0 v0] db IH]; cbn.
  - intros H. by apply elem_of_nil in H.
  - intros H. destruct (Js.strict_eq k0 k) eqn:E; cbn; [done|].
    apply elem_of_cons in H as [->|H]; [by rewrite strict_eq_refl in E|].
    by rewrite IH.
Qed.

Lemma Map_keys_set_new db k v :
  k ∉ Map_keys db -> Map_keys (Map_set db k v) = Map_keys db ++ [k].
Proof.
  unfold Map_keys. induction db as [|[k0 v0] db IH]; cbn; [done|].
  intros H. apply not_elem_of_cons in H as [Hne H].
  rewrite strict_eq_false by done. cbn. by rewrite IH.
Qed.

Lemma Map_keys_set_elem db k v k' :
  k' ∈ Map_keys (Map_set db k v) <-> k' ∈ Map_keys db \/ k' = k.
Proof.
  destruct (decide (k ∈ Map_keys db)) as [Hin|Hnin].
  - rewrite Map_keys_set_old by done. split; [by left|]. by intros [H| ->].
  - rewrite Map_keys_set_new by done. rewrite elem_of_app, list_elem_of_singleton. done.
Qed.

Lemma Map_keys_set_NoDup db k v :
  NoDup (Map_keys db) -> NoDup (Map_keys (Map_set db k v)).
Proof.
  intros Hnd. destruct (decide (k ∈ Map_keys db)) as [Hin|Hnin].
  - by rewrite Map_keys_set_old.
  - rewrite Map_keys_set_new by done. apply NoDup_app. split; [done|].
    split; [|apply NoDup_singleton].
    intros x Hx Hk. apply list_elem_of_singleton in Hk as ->. done.
Qed.

Lemma Map_set_keyed db k v :
  Forall (fun e => row_id (snd e) = fst e) db ->
  row_id v = k ->
  Forall (fun e => row_id (snd e) = fst e) (Map_set db k v).
Proof.
  intros H Hv. induction H as [|[k0 v0] db H0 H IH]; cbn.
  - by constructor.
  - destruct (Js.strict_eq k0 k) eqn:E.
    + apply strict_eq_true in E as ->. by constructor.
    + by constructor.
Qed.

Lemma prepare_ingest_sql :
  run (prepare ingest_sql) = Some (fun db r => Map_set db (row_id r) r).
Proof. reflexivity. Qed.

Lemma POST_ingest_authorised API_KEY db req :
  requireApiKey API_KEY req = true ->
  POST_ingest API_KEY db req =
    (Map_set db (id (default empty_rec (body req)))
             (row_of (default empty_rec (body req))), json_ok).
Proof.
  intros H. unfold Server.POST_ingest. rewrite H, prepare_ingest_sql. reflexivity.
Qed.

Lemma POST_ingest_refused API_KEY db req :
  requireApiKey API_KEY req = false ->
  POST_ingest API_KEY db req = (db, json_error 401 "invalid api key").
Proof. intros H. unfold Server.POST_ingest. by rewrite H. Qed.

Lemma POST_ingests_snoc API_KEY db reqs req :
  POST_ingests API_KEY db (reqs ++ [req]) =
    fst (POST_ingest API_KEY (POST_ingests API_KEY db reqs) req).
Proof. unfold Server.POST_ingests. by rewrite fold_left_app. Qed.

Lemma GET_visits_rows db :
  GET_visits db = Some (select_visits localeCompare db).
Proof. reflexivity. Qed.

(** X22: the in-memory database holds one row per id, the one posted
    last.  An authorised [/ingest] stores the body under its id (also
    under the id [undefined]) and leaves every other row alone; posting
    the same request again changes nothing; a refused request changes
    nothing and is answered 401.  After any sequence of requests the
    stored ids are pairwise distinct, they are the ids of the authorised
    requests, and [/visits] lists each at most once, at most 1000 rows in
    all. *)
Theorem server_keeps_the_last_record_of_each_id API_KEY :
  (forall db req,
     requireApiKey API_KEY req = true ->
     let r := default empty_rec (body req) in
     let db' := fst (POST_ingest API_KEY db req) in
     snd (POST_ingest API_KEY db req) = json_ok
     /\ Map_get db' (id r) = Some (row_of r)
     /\ (forall k, k <> id r -> Map_get db' k = Map_get db k)
     /\ fst (POST_ingest API_KEY db' req) = db')
  /\ (forall db req,
        requireApiKey API_KEY req = false ->
        POST_ingest API_KEY db req = (db, json_error 401 "invalid api key"))
  /\ (forall reqs,
        let db := POST_ingests API_KEY [] reqs in
        NoDup (Map_keys db)
        /\ (forall k, k ∈ Map_keys db <->
              exists req, req ∈ reqs /\ requireApiKey API_KEY req = true
                          /\ id (default empty_rec (body req)) = k)
        /\ (exists l, GET_visits db = Some l
                      /\ (length l <= 1000)%nat
                      /\ NoDup (map id_of l)
                      /\ (forall x, x ∈ l -> id_of x ∈ Map_keys db))).
Proof.
  split; [|split].
  - intros db req H r db'. subst db'. rewrite !POST_ingest_authorised by done.
    cbn [fst snd]. fold r. split; [done|]. split; [apply Map_get_set_same|].
    split; [intros k Hk; by apply Map_get_set_other|]. apply Map_set_set.
  - intros db req H. by apply POST_ingest_refused.
  - intros reqs db.
    assert (Hnd : NoDup (Map_keys db)).
    { subst db. induction reqs as [|req reqs IH] using rev_ind; [apply NoDup_nil_2|].
      rewrite POST_ingests_snoc.
      destruct (requireApiKey API_KEY req) eqn:E.
      - rewrite POST_ingest_authorised by done. by apply Map_keys_set_NoDup.
      - by rewrite POST_ingest_refused. }
    split; [done|]. split.
    + clear Hnd. subst db. induction reqs as [|req reqs IH] using rev_ind.
      * intros k. split; [intros H; by apply elem_of_nil in H|].
        intros (req & H & _). by apply elem_of_nil in H.
      * intros k. rewrite POST_ingests_snoc.
        destruct (requireApiKey API_KEY req) eqn:E.
        -- rewrite POST_ingest_authorised by done. cbn [fst].
           rewrite Map_keys_set_elem, IH. split.
           ++ intros [(req' & Hin & Hok & Hid)| ->].
              ** exists req'. rewrite elem_of_app. by auto.
              ** exists req. rewrite elem_of_app, list_elem_of_singleton. by auto.
           ++ intros (req' & Hin & Hok & Hid). apply elem_of_app in Hin as [Hin|Hin].
              ** left. by exists req'.
              ** apply list_elem_of_singleton in Hin as ->. by right.
        -- rewrite POST_ingest_refused by done. cbn [fst]. rewrite IH. split.
           ++ intros (req' & Hin & Hok & Hid). exists req'. rewrite elem_of_app. by auto.
           ++ intros (req' & Hin & Hok & Hid). apply elem_of_app in Hin as [Hin|Hin].
              ** by exists req'.
              ** apply list_elem_of_singleton in Hin as ->. congruence.
    + exists (select_visits localeCompare db). split; [apply GET_visits_rows|].
      unfold select_visits.
      set (rows := map _ db).
      assert (Hids : map id_of (Dashboard.sort_by (by_ts_desc localeCompare) rows)
                     ≡ₚ Map_keys db).
      { change (map id_of ?l) with (id_of <$> l). rewrite sort_by_perm.
        assert (Hkeys : Forall (fun e => row_id (snd e) = fst e) db).
        { subst db. clear. induction reqs as [|req reqs IH] using rev_ind; [done|].
          rewrite POST_ingests_snoc.
          destruct (requireApiKey API_KEY req) eqn:E.
          - rewrite POST_ingest_authorised by done. by apply Map_set_keyed.
          - by rewrite POST_ingest_refused. }
        subst rows. unfold Map_keys. clear -Hkeys.
        induction Hkeys as [|[k v] db' Hk _ IH]; [done|].
        cbn in *. by rewrite IH, Hk. }
      split; [rewrite length_take; lia|]. split.
      * change (map id_of ?l) with (id_of <$> l). rewrite fmap_take.
        eapply sublist_NoDup; [|apply sublist_take].
        change (id_of <$> ?l) with (map id_of l). by rewrite Hids.
      * intros x Hx. rewrite <- Hids.
        change (map id_of ?l) with (id_of <$> l). apply list_elem_of_fmap.
        exists x. split; [done|]. eapply elem_of_sublist; [done|apply sublist_take].
Qed.

(** X23: over the in-memory database [GET /aggregates] answers the empty
    list whatever is stored: its SQL text opens with a line break, so it
    neither starts with [select] nor is an insert, and [prepare] hands
    back the statement that does nothing.  The same text without the
    blanks around it would reach the by-day statement, and [GET /visits]
    does reach its list statement. *)
Theorem in_memory_aggregates_are_always_empty db :
  GET_aggregates db = Some []
  /\ ((fun f => f db) <$> all (prepare trimmed_aggregates_sql)) = Some (select_by_day db)
  /\ GET_visits db = Some (select_visits localeCompare db)
  /\ (forall sql c rest,
        toLowerCase sql = String c rest ->
        c <> "i"%char -> c <> "s"%char ->
        includes (toLowerCase sql) "insert or replace" = false ->
        (fun f => f db) <$> all (prepare sql) = Some []).
Proof.
  split; [reflexivity|]. split; [reflexivity|]. split; [reflexivity|].
  intros sql c rest Hs Hi Hsel Hinc. unfold Server.prepare. cbn zeta.
  rewrite Hinc, Hs.
  assert (H1 : startsWith (String c rest) "insert" = false).
  { unfold startsWith. cbn [String.prefix].
    destruct (ascii_dec "i" c) as [<-|_]; [done|reflexivity]. }
  assert (H2 : startsWith (String c rest) "select" = false).
  { unfold startsWith. cbn [String.prefix].
    destruct (ascii_dec "s" c) as [<-|_]; [done|reflexivity]. }
  rewrite H1, H2. reflexivity.
Qed.

(** X24: the two ingest services compared on a POST request, with the
    same key configured.  They refuse the same requests with 401.  A body
    without a truthy id is rejected with 400 by [api/ingest.js] and handed
    to no database, while [server.js] answers ok and stores it.  A body
    with an id that carries no snake-case fields is given the same
    numbers by both. *)
Theorem the_two_ingest_services_compared API_KEY now_iso insert db req :
  method req = "POST"%string ->
  let r := default empty_rec (body req) in
  (status_of (snd (POST_ingest API_KEY db req)) = 401
   <-> status_of (fst (handler API_KEY now_iso insert req)) = 401)
  /\ (requireApiKey API_KEY req = true -> Js.truthy_str (id r) = false ->
      handler API_KEY now_iso insert req = (json_error 400 "Invalid record", None)
      /\ snd (POST_ingest API_KEY db req) = json_ok
      /\ Map_get (fst (POST_ingest API_KEY db req)) (id r) = Some (row_of r))
  /\ (requireApiKey API_KEY req = true -> Js.truthy_str (id r) = true ->
      body req = Some r
      /\ snd (handler API_KEY now_iso insert req) = Some (payload_of now_iso r)
      /\ (transfer_bytes r = None -> resource_count r = None ->
          load_time_ms r = None -> estimated_co2_g r = None ->
          let p := payload_of now_iso r in
          p_id p = row_id (row_of r)
          /\ p_transfer_bytes p = row_transferBytes (row_of r)
          /\ p_resource_count p = row_resourceCount (row_of r)
          /\ p_load_time_ms p = row_loadTimeMs (row_of r)
          /\ p_estimated_co2_g p = row_estimatedCO2_g (row_of r))).
Proof.
  intros Hpost r.
  assert (Hauth : forall b,
    requireApiKey API_KEY req = b ->
    Js.truthy_str API_KEY
    && (negb (Js.truthy_str (Js.or_str (x_api_key req) (query_apiKey req)))
        || negb (Js.strict_eq (Js.or_str (x_api_key req) (query_apiKey req)) API_KEY))
    = negb b).
  { intros b <-. unfold requireApiKey.
    destruct (Js.truthy_str API_KEY) eqn:EK; cbn [negb andb]; [|done].
    destruct (Js.strict_eq _ API_KEY) eqn:E; cbn [negb orb].
    - apply strict_eq_true in E. rewrite E, EK. done.
    - by rewrite orb_true_r. }
  assert (Hhandler : forall b,
    requireApiKey API_KEY req = b ->
    handler API_KEY now_iso insert req =
      if b then
        match body req with
        | None => (json_error 400 "Invalid record", None)
        | Some record =>
            if negb (Js.truthy_str (id record))
            then (json_error 400 "Invalid record", None)
            else
              let p := payload_of now_iso record in
              match insert p with
              | no_error => (json_ok, Some p)
              | with_error => (json_error 500 "DB insert failed", Some p)
              | thrown => (json_error 500 "server error", Some p)
              end
        end
      else (json_error 401 "Unauthorized", None)).
  { intros b Hb. unfold handler. rewrite Hpost. cbn [String.eqb Ascii.eqb negb].
    change (("POST" =? "POST")%string) with true. cbn [negb].
    rewrite (Hauth b Hb). by destruct b. }
  split; [|split].
  - destruct (requireApiKey API_KEY req) eqn:E.
    + rewrite POST_ingest_authorised by done. rewrite (Hhandler true) by done.
      cbn [snd status_of]. split; [done|].
      destruct (body req) as [record|]; [|done].
      destruct (negb (Js.truthy_str (id record))); [done|].
      cbn zeta. by destruct (insert _).
    + rewrite POST_ingest_refused by done. rewrite (Hhandler false) by done. done.
  - intros Hok Hid. rewrite POST_ingest_authorised by done. rewrite (Hhandler true) by done.
    cbn [fst snd]. fold r. split; [|split; [done|apply Map_get_set_same]].
    subst r. destruct (body req) as [record|]; [|done].
    change (Js.truthy_str (id record) = false) in Hid. by rewrite Hid.
  - intros Hok Hid. rewrite (Hhandler true) by done.
    subst r. destruct (body req) as [record|]; [|done].
    change (Js.truthy_str (id record) = true) in Hid.
    change (default empty_rec (Some record)) with record.
    rewrite Hid. cbn [negb]. cbn zeta.
    split; [done|]. split; [by destruct (insert _)|].
    intros H1 H2 H3 H4. unfold payload_of, row_of.
    cbn [p_id p_transfer_bytes p_resource_count p_load_time_ms p_estimated_co2_g
         row_id row_transferBytes row_resourceCount row_loadTimeMs row_estimatedCO2_g].
    rewrite H1, H2, H3, H4. done.
Qed.

End ServerFacts.

Section ServerSamples.
Import Wire Server ApiIngest WireSamples.

Lemma server_keeps_the_last_record_of_each_id_witness :
  let reqs := [post None (posted "v-1" 1000); post None (posted "v-2" 2000);
               post None (posted "v-1" 3000)] in
  let db := POST_ingests by_code_units no_days None [] reqs in
  Map_keys db = [Some "v-1"%string; Some "v-2"%string]
  /\ (row_transferBytes <$> Map_get db (Some "v-1"%string)) = Some 3000
  /\ NoDup (Map_keys db).
Proof.
  intros reqs db. split; [reflexivity|]. split; [reflexivity|].
  destruct (server_keeps_the_last_record_of_each_id by_code_units no_days None)
    as (_ & _ & H).
  exact (proj1 (H reqs)).
Defined.

Lemma in_memory_aggregates_are_always_empty_witness :
  let db := POST_ingests by_code_units no_days None [] [post None (posted "v-1" 1000)] in
  length db = 1%nat /\ GET_aggregates by_code_units no_days db = Some [].
Proof.
  intros db. split; [reflexivity|].
  exact (proj1 (in_memory_aggregates_are_always_empty by_code_units no_days db)).
Defined.

Lemma the_two_ingest_services_compared_witness :
  let req := post (Some "k"%string) (posted "v-1" 1000) in
  status_of (snd (POST_ingest by_code_units no_days (Some "k"%string) [] req)) = 200
  /\ (status_of (snd (POST_ingest by_code_units no_days (Some "other"%string) [] req)) = 401
      <-> status_of (fst (handler (Some "other"%string) "2025-11-02T00:00:01.000Z"
                            (fun _ => no_error) req)) = 401).
Proof.
  intros req. split; [reflexivity|].
  apply (the_two_ingest_services_compared by_code_units no_days (Some "other"%string)
           "2025-11-02T00:00:01.000Z" (fun _ => no_error) [] req).
  reflexivity.
Defined.

End ServerSamples.
